(** * The AMQP adapter of moleculer-channels: a shallow embedding

    The development follows [src/adapters/amqp.js].  Every method of the
    adapter class is a function on an explicit adapter state; what the
    method asks of the amqplib channel is recorded as a list of transport
    actions, and what amqplib answers (a publish that reports a full write
    buffer, a rejected promise) is an argument of the function.

    Conventions:
    - a JavaScript number is an integer of [Z] (counters, retry budgets and
      header counts are integers in this code);
    - [None] stands for [undefined]/[null];
    - an object used as a dictionary is a [gmap string _];
    - an [await] splits a method where another task can observe the state. *)

From Stdlib Require Import ZArith Lia Ascii.
From stdpp Require Import base option list gmap strings pretty.

(** ** JavaScript values found in headers and option bags *)

Inductive hval : Type :=
| HNum (n : Z)
| HStr (s : string)
| HBool (b : bool).

#[global] Instance hval_eq_dec : EqDecision hval.
Proof. solve_decision. Defined.

Abbreviation bytes := (list Byte.byte).
Abbreviation bag := (gmap string hval).

(** Truthiness, as [!x], [x || y] and [if (x)] see it. *)
Definition truthy (v : hval) : bool :=
  match v with
  | HNum n => negb (n =? 0)%Z
  | HStr s => negb (String.eqb s "")
  | HBool b => b
  end.

Definition truthy_str (o : option string) : bool :=
  match o with
  | Some s => negb (String.eqb s "")
  | None => false
  end.

(** [x || ""] on a string that may be undefined. *)
Definition str_or_empty (o : option string) : string :=
  if truthy_str o then default "" o else "".

(** [!chan.maxRetries]: undefined, null and 0 are falsy. *)
Definition falsy_num (o : option Z) : bool :=
  match o with
  | Some n => (n =? 0)%Z
  | None => true
  end.

(** ** Channel descriptors and messages *)

Record DeadLettering : Type := mkDeadLettering {
  enabled : option bool;
  queueName : option string;
  exchangeName : option string
}.

Record AmqpChannelOptions : Type := mkAmqpChannelOptions {
  c_exchangeOptions : option bag;
  c_queueOptions : option bag;
  c_consumeOptions : option bag
}.

Record Channel : Type := mkChannel {
  id : string;
  name : string;
  group : string;
  maxRetries : option Z;
  deadLettering : option DeadLettering;
  amqp : option AmqpChannelOptions
}.

(** A delivery as amqplib hands it to the consumer callback:
    [msg.content], [msg.properties.headers], [msg.properties.correlationId],
    [msg.fields.consumerTag] and [msg.fields.deliveryTag]. *)
Record Message : Type := mkMessage {
  content : bytes;
  headers : bag;
  correlationId : option string;
  consumerTag : string;
  deliveryTag : Z
}.

(** The options object of [channel.publish]: scalar entries and the nested
    [headers] object. *)
Record PublishOptions : Type := mkPublishOptions {
  po_fields : bag;
  po_headers : option bag
}.

(** ** Transport actions and errors *)

Inductive action : Type :=
| Connect (uri : option string)
| CloseConnection
| CreateChannel
| Prefetch (n : Z)
| AssertExchange (exchange kind : string) (options : bag)
| AssertQueue (queue : string) (options : bag)
| BindQueue (queue exchange pattern : string)
| Consume (queue : string) (handlerOf : nat) (options : bag)
| Cancel (tag : string)
| Ack (m : Message)
| Nack (m : Message) (allUpTo requeue : bool)
| Publish (exchange : string) (routingKey : option string) (data : bytes)
          (options : PublishOptions)
| SetTimeout (ms : Z).

Inductive error : Type :=
| TypeError
| MoleculerError (message : string)
| TransportError.

Inductive completion : Type :=
| Returned
| Threw (e : error).

Definition write_buffer_full : error :=
  MoleculerError "AMQP publish error. Write buffer is full.".

(** ** Active-message tracker *)

Abbreviation tracker := (gmap string (gset string)).

(** Modelled from the spec: the tracker methods of the base adapter
    ([initChannelActiveMessages], [addChannelActiveMessages],
    [removeChannelActiveMessages], [getNumberOfChannelActiveMessages],
    [stopChannelActiveMessages]) are inherited from [./base], which is not
    among the sources.  The spec describes a per-channel set of in-flight
    message identifiers: entries are added when a message is handed to the
    handler, removed when the handler settles, and the set's size is the
    number of messages in flight. *)
Definition initChannelActiveMessages (channelID : string) (t : tracker) : tracker :=
  <[channelID := ∅]> t.

Definition addChannelActiveMessages (channelID : string) (ids : list string)
    (t : tracker) : tracker :=
  <[channelID := default ∅ (t !! channelID) ∪ list_to_set ids]> t.

Definition removeChannelActiveMessages (channelID : string) (ids : list string)
    (t : tracker) : tracker :=
  alter (λ s, s ∖ list_to_set ids) channelID t.

Definition getNumberOfChannelActiveMessages (channelID : string) (t : tracker) : nat :=
  size (default ∅ (t !! channelID)).

Definition stopChannelActiveMessages (channelID : string) (t : tracker) : tracker :=
  delete channelID t.

(** ** The consumer callback *)

Definition redelivered_key : string := "x-redelivered-count".
Definition original_channel_key : string := "x-original-channel".

(** The durable queue of a channel: [`${chan.group}.${chan.name}`]. *)
Definition queueNameOf (chan : Channel) : string :=
  group chan +:+ "." +:+ name chan.

(** [msg.properties.correlationId || `${consumerTag}:${deliveryTag}`] *)
Definition messageId (msg : Message) : string :=
  if truthy_str (correlationId msg)
  then default "" (correlationId msg)
  else consumerTag msg +:+ ":" +:+ pretty (deliveryTag msg).

(** How the [try] block of the callback ends: deserialization and the
    channel's handler both succeed, or one of them throws. *)
Inductive settlement : Type :=
| Resolves
| Rejects.

Section Consumer.

(** [s >= n] for a string [s] and a number [n] (JavaScript converts the
    string); it is only consulted when a header carries a string. *)
Variable str_ge : string → Z → bool.

(** [msg.properties.headers["x-redelivered-count"] || 1] *)
Definition redeliveryCount (msg : Message) : hval :=
  match headers msg !! redelivered_key with
  | Some v => if truthy v then v else HNum 1
  | None => HNum 1
  end.

(** [redeliveryCount >= chan.maxRetries], the right operand a number. *)
Definition js_ge (v : hval) (n : Z) : bool :=
  match v with
  | HNum c => (n <=? c)%Z
  | HStr s => str_ge s n
  | HBool b => (n <=? (if b then 1 else 0))%Z
  end.

(** [redeliveryCount + 1] *)
Definition js_succ (v : hval) : hval :=
  match v with
  | HNum c => HNum (c + 1)
  | HStr s => HStr (s +:+ "1")
  | HBool b => HNum ((if b then 1 else 0) + 1)
  end.

(** [chan.maxRetries > 0 && redeliveryCount >= chan.maxRetries] *)
Definition retries_exhausted (chan : Channel) (msg : Message) : bool :=
  match maxRetries chan with
  | Some n => (0 <? n)%Z && js_ge (redeliveryCount msg) n
  | None => false
  end.

(** The options of the dead-letter publish:
    [{ headers: { "x-original-channel": chan.name } }]. *)
Definition deadLetterOptions (chan : Channel) : PublishOptions :=
  {| po_fields := ∅;
     po_headers := Some {[ original_channel_key := HStr (name chan) ]} |}.

(** The options of the redelivery publish:
    [{ headers: Object.assign({}, msg.properties.headers,
                              { "x-redelivered-count": redeliveryCount + 1 }) }]. *)
Definition redeliverOptions (msg : Message) : PublishOptions :=
  {| po_fields := ∅;
     po_headers :=
       Some (<[redelivered_key := js_succ (redeliveryCount msg)]> (headers msg)) |}.

(** [const res = this.channel.publish(...); if (res === false) throw ...;
    this.channel.ack(msg);] *)
Definition publish_then_ack (p : action) (msg : Message) (res : bool)
    : list action * completion :=
  if res then ([p; Ack msg], Returned) else ([p], Threw write_buffer_full).

(** The [catch] block of the callback, after the tracker entry is removed.
    [res] is what [this.channel.publish] returns if it is called. *)
Definition onFailure (chan : Channel) (msg : Message) (res : bool)
    : list action * completion :=
  let dropped :=
    if falsy_num (maxRetries chan) then [Nack msg false false] else [] in
  let '(routed, c) :=
    if retries_exhausted chan msg then
      match deadLettering chan with
      | None => ([], Threw TypeError)
      | Some dl =>
          if default false (enabled dl) then
            publish_then_ack
              (Publish (str_or_empty (exchangeName dl)) (queueName dl)
                       (content msg) (deadLetterOptions chan))
              msg res
          else ([Nack msg false false], Returned)
      end
    else
      publish_then_ack
        (Publish "" (Some (queueNameOf chan)) (content msg) (redeliverOptions msg))
        msg res
  in (dropped ++ routed, c).

(** [createConsumerHandler(chan)(msg)] *)
Definition createConsumerHandler (chan : Channel) (msg : Message)
    (outcome : settlement) (res : bool) (t : tracker)
    : tracker * list action * completion :=
  let mid := messageId msg in
  let t1 := addChannelActiveMessages (id chan) [mid] t in
  let t2 := removeChannelActiveMessages (id chan) [mid] t1 in
  match outcome with
  | Resolves => (t2, [Ack msg], Returned)
  | Rejects => let '(acts, c) := onFailure chan msg res in (t2, acts, c)
  end.

End Consumer.

(** ** The life of one message across redeliveries

    The redelivery branch publishes the message to the channel's own queue
    through the default exchange and acknowledges the delivery at hand, so
    the broker hands the published bytes and headers to the consumer again.
    The republish sets no correlation id; the broker picks the delivery
    tag.  Every other way out of the callback ends the message's life on
    this queue: acknowledged, dropped, dead-lettered, or left
    unacknowledged by a thrown error. *)

Record delivery_env : Type := mkDeliveryEnv {
  settles : settlement;
  publish_result : bool;
  tag : Z
}.

Record delivery : Type := mkDelivery {
  d_msg : Message;
  d_actions : list action;
  d_completion : completion
}.

Section Lineage.

Variable str_ge : string → Z → bool.

Definition requeued (msg : Message) (newTag : Z) : Message :=
  {| content := content msg;
     headers := default ∅ (po_headers (redeliverOptions msg));
     correlationId := None;
     consumerTag := consumerTag msg;
     deliveryTag := newTag |}.

(** [lineage fuel chan env k msg t]: the deliveries of a message from its
    [k]-th delivery on, [env j] describing the [j]-th one.  [None] when
    the message is still being redelivered after [fuel] deliveries. *)
Fixpoint lineage (fuel : nat) (chan : Channel) (env : nat → delivery_env)
    (k : nat) (msg : Message) (t : tracker) : option (list delivery) :=
  match fuel with
  | O => None
  | S fuel' =>
      let '(t', acts, c) :=
        createConsumerHandler str_ge chan msg (settles (env k))
                              (publish_result (env k)) t in
      let here := mkDelivery msg acts c in
      match settles (env k), c with
      | Rejects, Returned =>
          if retries_exhausted str_ge chan msg then Some [here]
          else
            rest ← lineage fuel' chan env (S k)
                           (requeued msg (tag (env (S k)))) t';
            Some (here :: rest)
      | _, _ => Some [here]
      end
  end.

End Lineage.

Definition is_publish (a : action) : bool :=
  match a with Publish _ _ _ _ => true | _ => false end.

(** ** Adapter state *)

Record Subscription : Type := mkSubscription {
  sub_chan : nat;
  sub_consumerTag : string
}.

Record AmqpOptions : Type := mkAmqpOptions {
  url : option (list string);
  prefetch : option Z;
  exchangeOptions : bag;
  queueOptions : bag;
  messageOptions : PublishOptions;
  consumeOptions : bag
}.

Record Options : Type := mkOptions {
  opt_maxRetries : option Z;
  opt_deadLettering : option DeadLettering;
  opt_amqp : AmqpOptions
}.

(** The fields of an [AmqpAdapter], and the channel descriptors it holds
    references to.  A descriptor is a JavaScript object shared by the
    caller of [subscribe], the subscription table and the consumer
    callback; [objects] is the store of these objects and a [nat] a
    reference into it. *)
Record Adapter : Type := mkAdapter {
  opts : Options;
  connection : bool;
  channel : bool;
  subscriptions : list (string * Subscription);
  connected : bool;
  stopping : bool;
  connectAttempt : Z;
  connectionCount : Z;
  activeMessages : tracker;
  objects : gmap nat Channel
}.

(** The state the constructor leaves: [opts.amqp.url] is already the list
    obtained from a semicolon-separated string. *)
Definition new_adapter (o : Options) : Adapter :=
  {| opts := o; connection := false; channel := false; subscriptions := [];
     connected := false; stopping := false; connectAttempt := 0;
     connectionCount := 0; activeMessages := ∅; objects := ∅ |}.

Definition with_link (conn chan : bool) (a : Adapter) : Adapter :=
  {| opts := opts a; connection := conn; channel := chan;
     subscriptions := subscriptions a; connected := connected a;
     stopping := stopping a; connectAttempt := connectAttempt a;
     connectionCount := connectionCount a;
     activeMessages := activeMessages a; objects := objects a |}.

Definition with_connected (b : bool) (a : Adapter) : Adapter :=
  {| opts := opts a; connection := connection a; channel := channel a;
     subscriptions := subscriptions a; connected := b;
     stopping := stopping a; connectAttempt := connectAttempt a;
     connectionCount := connectionCount a;
     activeMessages := activeMessages a; objects := objects a |}.

Definition with_stopping (b : bool) (a : Adapter) : Adapter :=
  {| opts := opts a; connection := connection a; channel := channel a;
     subscriptions := subscriptions a; connected := connected a;
     stopping := b; connectAttempt := connectAttempt a;
     connectionCount := connectionCount a;
     activeMessages := activeMessages a; objects := objects a |}.

Definition with_connectAttempt (n : Z) (a : Adapter) : Adapter :=
  {| opts := opts a; connection := connection a; channel := channel a;
     subscriptions := subscriptions a; connected := connected a;
     stopping := stopping a; connectAttempt := n;
     connectionCount := connectionCount a;
     activeMessages := activeMessages a; objects := objects a |}.

Definition with_connectionCount (n : Z) (a : Adapter) : Adapter :=
  {| opts := opts a; connection := connection a; channel := channel a;
     subscriptions := subscriptions a; connected := connected a;
     stopping := stopping a; connectAttempt := connectAttempt a;
     connectionCount := n;
     activeMessages := activeMessages a; objects := objects a |}.

Definition with_subscriptions (s : list (string * Subscription)) (a : Adapter) : Adapter :=
  {| opts := opts a; connection := connection a; channel := channel a;
     subscriptions := s; connected := connected a;
     stopping := stopping a; connectAttempt := connectAttempt a;
     connectionCount := connectionCount a;
     activeMessages := activeMessages a; objects := objects a |}.

Definition with_activeMessages (t : tracker) (a : Adapter) : Adapter :=
  {| opts := opts a; connection := connection a; channel := channel a;
     subscriptions := subscriptions a; connected := connected a;
     stopping := stopping a; connectAttempt := connectAttempt a;
     connectionCount := connectionCount a;
     activeMessages := t; objects := objects a |}.

Definition with_objects (h : gmap nat Channel) (a : Adapter) : Adapter :=
  {| opts := opts a; connection := connection a; channel := channel a;
     subscriptions := subscriptions a; connected := connected a;
     stopping := stopping a; connectAttempt := connectAttempt a;
     connectionCount := connectionCount a;
     activeMessages := activeMessages a; objects := h |}.

(** [Map.prototype.get] and [Map.prototype.set] on an insertion-ordered
    table: [set] on a present key keeps the key's place. *)
Fixpoint table_get {V : Type} (k : string) (m : list (string * V)) : option V :=
  match m with
  | [] => None
  | (k', v) :: rest => if String.eqb k k' then Some v else table_get k rest
  end.

Fixpoint table_set {V : Type} (k : string) (v : V) (m : list (string * V))
    : list (string * V) :=
  match m with
  | [] => [(k, v)]
  | (k', v') :: rest =>
      if String.eqb k k' then (k, v) :: rest else (k', v') :: table_set k v rest
  end.

(** ** subscribe and resubscribeAllChannels *)

(** What the broker answers to one [subscribe]: whether the awaited
    [assertQueue] resolves, and the consumer tag [consume] resolves with
    ([None] when it rejects). *)
Record subscribe_env : Type := mkSubscribeEnv {
  assertQueue_ok : bool;
  consume_result : option string
}.

Definition first_defined {A : Type} (x y : option A) : option A :=
  match x with
  | Some _ => x
  | None => y
  end.

(** [_.defaultsDeep({}, chan.deadLettering, this.opts.deadLettering)] *)
Definition mergeDeadLettering (c o : option DeadLettering) : DeadLettering :=
  {| enabled := first_defined (c ≫= enabled) (o ≫= enabled);
     queueName := first_defined (c ≫= queueName) (o ≫= queueName);
     exchangeName := first_defined (c ≫= exchangeName) (o ≫= exchangeName) |}.

(** [_.defaultsDeep({}, chan.amqp ? chan.amqp.xOptions : {}, this.opts.amqp.xOptions)]
    on flat option bags. *)
Definition mergeBag (chan : Channel) (field : AmqpChannelOptions → option bag)
    (adapterWide : bag) : bag :=
  default ∅ (amqp chan ≫= field) ∪ adapterWide.

Section Topology.

(** [addPrefixTopic] is inherited from [./base], which is not among the
    sources; the argument may be undefined. *)
Variable addPrefixTopic : option string → option string.

(** The first lines of the [try] block of [subscribe]: defaults are
    written into the descriptor itself. *)
Definition backfill (o : Options) (chan : Channel) : Channel :=
  let dl := mergeDeadLettering (deadLettering chan) (opt_deadLettering o) in
  let dl' :=
    if default false (enabled dl)
    then {| enabled := enabled dl;
            queueName := addPrefixTopic (queueName dl);
            exchangeName := addPrefixTopic (exchangeName dl) |}
    else dl in
  {| id := id chan; name := name chan; group := group chan;
     maxRetries := first_defined (maxRetries chan) (opt_maxRetries o);
     deadLettering := Some dl';
     amqp := amqp chan |}.

(** [subscribe(chan)], [ref] being the reference of the descriptor. *)
Definition subscribe (a : Adapter) (ref : nat) (env : subscribe_env)
    : Adapter * list action * completion :=
  match objects a !! ref with
  | None => (a, [], Threw TypeError)
  | Some chan0 =>
      let chan := backfill (opts a) chan0 in
      let a1 := with_objects (<[ref := chan]> (objects a)) a in
      if negb (channel a1) then (a1, [], Threw TypeError)
      else
        let o := opt_amqp (opts a1) in
        let queue := queueNameOf chan in
        let asserted :=
          [AssertExchange (name chan) "fanout"
                          (mergeBag chan c_exchangeOptions (exchangeOptions o));
           AssertQueue queue (mergeBag chan c_queueOptions (queueOptions o))] in
        if negb (assertQueue_ok env) then (a1, asserted, Threw TransportError)
        else
          let a2 :=
            with_activeMessages
              (initChannelActiveMessages (id chan) (activeMessages a1)) a1 in
          let acts :=
            asserted ++
            [BindQueue queue (name chan) "";
             Consume queue ref (mergeBag chan c_consumeOptions (consumeOptions o))] in
          match consume_result env with
          | None => (a2, acts, Threw TransportError)
          | Some consumerTag =>
              (with_subscriptions
                 (table_set (id chan) (mkSubscription ref consumerTag)
                            (subscriptions a2)) a2,
               acts, Returned)
          end
  end.

(** The loop of [resubscribeAllChannels] over the snapshot
    [Array.from(this.subscriptions.values())]; a [subscribe] that throws
    ends the loop. *)
Fixpoint resubscribe_loop (refs : list nat) (a : Adapter)
    (env : nat → subscribe_env) : Adapter * list action * completion :=
  match refs with
  | [] => (a, [], Returned)
  | ref :: rest =>
      let '(a1, acts, c) := subscribe a ref (env ref) in
      match c with
      | Returned =>
          let '(a2, acts', c') := resubscribe_loop rest a1 env in
          (a2, acts ++ acts', c')
      | Threw e => (a1, acts, Threw e)
      end
  end.

Definition resubscribeAllChannels (a : Adapter) (env : nat → subscribe_env)
    : Adapter * list action * completion :=
  resubscribe_loop (map (λ e, sub_chan e.2) (subscriptions a)) a env.

(** ** tryConnect and connect *)

Record connect_env : Type := mkConnectEnv {
  connect_ok : bool;
  createChannel_ok : bool;
  resubscribe_env : nat → subscribe_env
}.

(** [uri[(this.connectAttempt - 1) % uri.length]]: [%] is the remainder
    that takes the sign of the dividend, and an index that is no element
    index reads [undefined]. *)
Definition url_at (uri : list string) (attempt : Z) : option string :=
  let len := Z.of_nat (length uri) in
  if (len =? 0)%Z then None
  else
    let urlIndex := Z.rem (attempt - 1) len in
    if (urlIndex <? 0)%Z then None else uri !! Z.to_nat urlIndex.

(** The head of [tryConnect]: the attempt counter moves only when the
    configured URL is an array. *)
Definition pickUri (a : Adapter) : Adapter * option string :=
  match url (opt_amqp (opts a)) with
  | Some uri =>
      let attempt := (connectAttempt a + 1)%Z in
      (with_connectAttempt attempt a, url_at uri attempt)
  | None => (a, None)
  end.

Definition tryConnect (a : Adapter) (env : connect_env)
    : Adapter * list action * completion :=
  let '(a1, uri) := pickUri a in
  if negb (connect_ok env) then (a1, [Connect uri], Threw TransportError)
  else
    let a2 := with_connected true (with_link true (channel a1) a1) in
    if negb (createChannel_ok env)
    then (a2, [Connect uri; CreateChannel], Threw TransportError)
    else
      let a3 := with_link true true a2 in
      let setup :=
        [Connect uri; CreateChannel] ++
        match prefetch (opt_amqp (opts a3)) with
        | Some n => [Prefetch n]
        | None => []
        end in
      let a4 := with_connectionCount (connectionCount a3 + 1) a3 in
      if (1 <? connectionCount a4)%Z then
        let '(a5, acts, c) := resubscribeAllChannels a4 (resubscribe_env env) in
        (a5, setup ++ acts, c)
      else (a4, setup, Returned).

(** [connect()]: [tryConnect] again 2000 ms after each failure, [envs k]
    describing the [k]-th attempt of this call.  [None] when [fuel]
    attempts have all failed. *)
Fixpoint connect (fuel : nat) (a : Adapter) (envs : nat → connect_env) (k : nat)
    : option (Adapter * list action) :=
  match fuel with
  | O => None
  | S fuel' =>
      let '(a1, acts, c) := tryConnect a (envs k) in
      match c with
      | Returned => Some (a1, acts)
      | Threw _ =>
          '(a2, rest) ← connect fuel' a1 envs (S k);
          Some (a2, acts ++ SetTimeout 2000 :: rest)
      end
  end.

(** The ["close"] listener of the connection followed by the [connect()]
    it schedules. *)
Definition onConnectionClose (fuel : nat) (a : Adapter) (envs : nat → connect_env)
    : option (Adapter * list action) :=
  let a1 := with_connected false a in
  if stopping a1 then Some (a1, [])
  else
    '(a2, acts) ← connect fuel a1 envs 0;
    Some (a2, SetTimeout 2000 :: acts).

End Topology.

(** Modelled from the spec: [addPrefixTopic] of the base adapter, which is
    not among the sources.  The spec lists a topic/queue/exchange name
    prefix that is applied uniformly to dead-letter destinations: the
    configured prefix is put before the name, joined by a dot as in the
    queue names of this adapter.  A name is left as it is when no prefix
    is configured, and so is a missing or empty name (the empty exchange
    name is the default exchange). *)
Definition prefixTopic (prefix : option string) (topicName : option string)
    : option string :=
  if truthy_str prefix && truthy_str topicName
  then Some (default "" prefix +:+ "." +:+ default "" topicName)
  else topicName.

(** The names a subscription relies on: dead-letter queue, dead-letter
    exchange, durable queue and exchange. *)
Definition topologyNames (chan : Channel)
    : option string * option string * string * string :=
  (deadLettering chan ≫= queueName, deadLettering chan ≫= exchangeName,
   queueNameOf chan, name chan).

(** The hosts that the [Connect] actions of a trace target, in order. *)
Definition connect_targets (acts : list action) : list (option string) :=
  omap (λ a, match a with Connect uri => Some uri | _ => None end) acts.

(** ** disconnect *)

Inductive close_result : Type :=
| CloseResolves
| CloseRejects.

(** [disconnect()] up to its [await]: the guard and the stopping flag.  The
    boolean tells whether the call goes on ([false]: it has returned at the
    guard). *)
Definition disconnect_begin (a : Adapter) : Adapter * bool :=
  if stopping a then (a, false) else (with_stopping true a, true).

(** The rest of [disconnect()], entered with the stopping flag set: the
    connection is closed if there is one, and the flag is reset. *)
Definition disconnect_finish (a : Adapter) (r : close_result)
    : Adapter * list action :=
  let '(a1, acts) :=
    if connection a then
      match r with
      | CloseResolves => (with_link false false a, [CloseConnection])
      | CloseRejects => (a, [CloseConnection])
      end
    else (a, []) in
  (with_stopping false a1, acts).

Definition disconnect (a : Adapter) (r : close_result) : Adapter * list action :=
  let '(a1, goes_on) := disconnect_begin a in
  if goes_on then disconnect_finish a1 r else (a1, []).

(** ** unsubscribe *)

(** [checkPendingMessages]: [snap k] is the tracker as the [k]-th check
    finds it (handlers of other deliveries run between two checks).  [None]
    when [fuel] checks have all found messages in flight.  The tracker
    methods modelled above do not throw, so the [catch] of the source has
    nothing to reject with. *)
Fixpoint checkPendingMessages (fuel : nat) (channelID : string)
    (snap : nat → tracker) (k : nat) : option (tracker * list action) :=
  match fuel with
  | O => None
  | S fuel' =>
      if Nat.eqb (getNumberOfChannelActiveMessages channelID (snap k)) 0
      then Some (stopChannelActiveMessages channelID (snap k), [])
      else
        '(t, acts) ← checkPendingMessages fuel' channelID snap (S k);
        Some (t, SetTimeout 1000 :: acts)
  end.

(** [unsubscribe(chan)]; [cancel_ok] tells whether the awaited
    [channel.cancel] resolves. *)
Definition unsubscribe (fuel : nat) (a : Adapter) (chan : Channel)
    (cancel_ok : bool) (snap : nat → tracker)
    : option (Adapter * list action * completion) :=
  match table_get (id chan) (subscriptions a) with
  | None => Some (a, [], Threw TypeError)
  | Some sub =>
      if negb (channel a) then Some (a, [], Threw TypeError)
      else if negb cancel_ok
      then Some (a, [Cancel (sub_consumerTag sub)], Threw TransportError)
      else
        '(t, acts) ← checkPendingMessages fuel (id chan) snap 0;
        Some (with_activeMessages t a, Cancel (sub_consumerTag sub) :: acts, Returned)
  end.

(** ** publish *)

(** The [opts] argument of [publish]. *)
Record PublishCall : Type := mkPublishCall {
  o_persistent : option hval;
  o_ttl : option hval;
  o_priority : option hval;
  o_correlationId : option hval;
  o_headers : option bag;
  o_raw : bool
}.

(** An object literal whose undefined entries do not count. *)
Definition defined_entries (l : list (string * option hval)) : bag :=
  list_to_map (omap (λ e, (λ v, (e.1, v)) <$> e.2) l).

Definition callOptions (o : PublishCall) : PublishOptions :=
  {| po_fields :=
       defined_entries [("persistent", o_persistent o); ("expiration", o_ttl o);
                        ("priority", o_priority o);
                        ("correlationId", o_correlationId o)];
     po_headers := o_headers o |}.

(** [_.defaultsDeep({}, x, y)]: [x] wins entry by entry, also inside
    [headers]. *)
Definition defaultsDeep (x y : PublishOptions) : PublishOptions :=
  {| po_fields := po_fields x ∪ po_fields y;
     po_headers := union_with (λ h h', Some (h ∪ h')) (po_headers x) (po_headers y) |}.

Section Publisher.

(** The serializer is supplied from outside; [raw_bytes] reads the bytes
    of a payload that the caller passes as a buffer ([opts.raw]). *)
Context {V : Type}.
Variable serialize : V → bytes.
Variable raw_bytes : V → bytes.

(** [publish(channelName, payload, opts)]; [res] is what
    [this.channel.publish] returns when it is called. *)
Definition publish (a : Adapter) (channelName : string) (payload : V)
    (o : PublishCall) (res : bool) : list action * completion :=
  if stopping a then ([], Returned)
  else
    let messageOpts := defaultsDeep (callOptions o) (messageOptions (opt_amqp (opts a))) in
    let data := if o_raw o then raw_bytes payload else serialize payload in
    if negb (channel a) then ([], Threw TypeError)
    else
      let sent := Publish channelName (Some "") data messageOpts in
      if res then ([sent], Returned) else ([sent], Threw write_buffer_full).

End Publisher.

(** ** What an always-failing message is expected to go through

    [expected n chan env k msg]: [n] redeliveries from the [k]-th delivery
    on, each one publishing the message to the channel's own queue and
    acknowledging the delivery at hand, then the delivery that finds the
    budget used up. *)

Definition exhaustedActions (chan : Channel) (msg : Message) : list action :=
  match deadLettering chan with
  | Some dl =>
      if default false (enabled dl) then
        [Publish (str_or_empty (exchangeName dl)) (queueName dl) (content msg)
                 (deadLetterOptions chan);
         Ack msg]
      else [Nack msg false false]
  | None => []
  end.

Definition redeliverActions (chan : Channel) (msg : Message) : list action :=
  [Publish "" (Some (queueNameOf chan)) (content msg) (redeliverOptions msg); Ack msg].

Fixpoint expected (n : nat) (chan : Channel) (env : nat → delivery_env) (k : nat)
    (msg : Message) : list delivery :=
  match n with
  | O => [mkDelivery msg (exhaustedActions chan msg) Returned]
  | S n' =>
      mkDelivery msg (redeliverActions chan msg) Returned ::
      expected n' chan env (S k) (requeued msg (tag (env (S k))))
  end.

(** The message as its [i]-th redelivery hands it over. *)
Fixpoint nth_delivery (i : nat) (env : nat → delivery_env) (k : nat)
    (msg : Message) : Message :=
  match i with
  | O => msg
  | S i' => nth_delivery i' env (S k) (requeued msg (tag (env (S k))))
  end.

(** A redelivery publish: to the channel's own queue through the default
    exchange, carrying the redelivery count. *)
Definition is_redelivery (chan : Channel) (a : action) : bool :=
  match a with
  | Publish ex (Some rk) _ o =>
      String.eqb ex "" && String.eqb rk (queueNameOf chan) &&
      bool_decide (is_Some (default ∅ (po_headers o) !! redelivered_key))
  | _ => false
  end.

Definition redelivery_count (chan : Channel) (ds : list delivery) : nat :=
  length (filter (λ a, is_redelivery chan a = true) (ds ≫= d_actions)).

(** ** Reading traces *)

Definition is_ack (a : action) : bool :=
  match a with Ack _ => true | _ => false end.

Definition is_nack (a : action) : bool :=
  match a with Nack _ _ _ => true | _ => false end.

(** The deliveries a trace settles, by acknowledgement or negative
    acknowledgement. *)
Definition settle_count (acts : list action) : nat :=
  length (filter (λ a, is_ack a || is_nack a = true) acts).

(** The descriptors whose callback a trace registers with [consume], in
    order. *)
Definition consumed (acts : list action) : list nat :=
  omap (λ a, match a with Consume _ ref _ => Some ref | _ => None end) acts.

Definition timeouts (acts : list action) : list Z :=
  omap (λ a, match a with SetTimeout ms => Some ms | _ => None end) acts.

(** The deliveries of a message whose handler fails [n] times within the
    budget and then succeeds. *)
Fixpoint acked_after (n : nat) (chan : Channel) (env : nat → delivery_env) (k : nat)
    (msg : Message) : list delivery :=
  match n with
  | O => [mkDelivery msg [Ack msg] Returned]
  | S n' =>
      mkDelivery msg (redeliverActions chan msg) Returned ::
      acked_after n' chan env (S k) (requeued msg (tag (env (S k))))
  end.

(** ** The subscription table and the descriptors it refers to *)

Definition table_refs (a : Adapter) : list nat :=
  map (λ e, sub_chan e.2) (subscriptions a).

Definition table_keys (a : Adapter) : list string :=
  map fst (subscriptions a).

(** Every entry refers to a stored descriptor whose id is the entry's key. *)
Definition table_consistent (a : Adapter) : Prop :=
  Forall (λ e, id <$> objects a !! sub_chan e.2 = Some e.1) (subscriptions a).

(** A reference that the table can hold: a stored descriptor whose id is a
    key of the table. *)
Definition known (a : Adapter) (ref : nat) : Prop :=
  ∃ chan, objects a !! ref = Some chan ∧ id chan ∈ table_keys a.

(** The broker lets a [subscribe] through. *)
Definition granted (env : subscribe_env) : Prop :=
  assertQueue_ok env = true ∧ is_Some (consume_result env).

(** ** The URL list of the constructor *)

(** [s.split(";")] *)
Fixpoint split_semicolon (s : string) : list string :=
  match s with
  | EmptyString => [""]
  | String c rest =>
      if Ascii.eqb c ";"%char then "" :: split_semicolon rest
      else
        match split_semicolon rest with
        | first :: others => String c first :: others
        | [] => [String c ""]
        end
  end.

Fixpoint has_semicolon (s : string) : bool :=
  match s with
  | EmptyString => false
  | String c rest => Ascii.eqb c ";"%char || has_semicolon rest
  end.

Fixpoint only_semicolons (s : string) : bool :=
  match s with
  | EmptyString => true
  | String c rest => Ascii.eqb c ";"%char && only_semicolons rest
  end.

Section ConstructorUrl.

(** [String.prototype.trim] *)
Variable trim : string → string.

(** [url.split(";").filter(s => !!s).map(s => s.trim())] *)
Definition splitUrl (s : string) : list string :=
  map trim (filter (λ x, x ≠ "") (split_semicolon s)).

(** What the constructor may find in [opts.amqp.url]. *)
Inductive url_config : Type :=
| UrlString (s : string)
| UrlArray (uri : list string)
| UrlMissing.

(** [this.opts.amqp.url] as the constructor leaves it: a string is split,
    anything else is kept. *)
Definition constructor_url (u : url_config) : option (list string) :=
  match u with
  | UrlString s => Some (splitUrl s)
  | UrlArray uri => Some uri
  | UrlMissing => None
  end.

End ConstructorUrl.

(** ** The Kafka adapter

    [src/adapters/kafka.js]: [subscribe], [unsubscribe] and
    [resubscribeAllChannels] have empty bodies there; [connect],
    [disconnect] and [publish] talk to a kafkajs producer and consumer. *)

Inductive kafka_action : Type :=
| ProducerConnect
| ConsumerConnect
| ProducerDisconnect
| ConsumerDisconnect
| Send (topic : string) (key : option string) (value : bytes) (partition : option Z)
       (acks timeout compression : option Z).

Record KafkaAdapter : Type := mkKafkaAdapter {
  k_client : bool;
  k_producer : bool;
  k_consumer : bool;
  k_connected : bool;
  k_stopping : bool
}.

Definition new_kafka_adapter : KafkaAdapter :=
  {| k_client := false; k_producer := false; k_consumer := false;
     k_connected := false; k_stopping := false |}.

(** [connect()]: the client, the producer and the consumer are created,
    then the two connects are awaited in turn. *)
Definition kafka_connect (a : KafkaAdapter) (producer_ok consumer_ok : bool)
    : KafkaAdapter * list kafka_action * completion :=
  let a1 := {| k_client := true; k_producer := true; k_consumer := true;
               k_connected := k_connected a; k_stopping := k_stopping a |} in
  if negb producer_ok then (a1, [ProducerConnect], Threw TransportError)
  else if negb consumer_ok
  then (a1, [ProducerConnect; ConsumerConnect], Threw TransportError)
  else (a1, [ProducerConnect; ConsumerConnect], Returned).

(** [disconnect()]: one [try] around both disconnects, the stopping flag
    reset after it. *)
Definition kafka_disconnect (a : KafkaAdapter) (producer_ok consumer_ok : bool)
    : KafkaAdapter * list kafka_action :=
  if k_stopping a then (a, [])
  else
    let '(producer', acts1, goes_on) :=
      if k_producer a then
        if producer_ok then (false, [ProducerDisconnect], true)
        else (true, [ProducerDisconnect], false)
      else (false, [], true) in
    let '(consumer', acts2) :=
      if goes_on && k_consumer a then
        if consumer_ok then (false, [ConsumerDisconnect])
        else (true, [ConsumerDisconnect])
      else (k_consumer a, []) in
    ({| k_client := k_client a; k_producer := producer'; k_consumer := consumer';
        k_connected := k_connected a; k_stopping := false |},
     acts1 ++ acts2).

(** The [opts] argument of the Kafka [publish]. *)
Record KafkaPublishCall : Type := mkKafkaPublishCall {
  ko_raw : bool;
  ko_key : option string;
  ko_partition : option Z;
  ko_acks : option Z;
  ko_timeout : option Z;
  ko_compression : option Z
}.

Section KafkaPublisher.

Context {V : Type}.
Variable serialize : V → bytes.
Variable raw_bytes : V → bytes.

(** [publish(channelName, payload, opts)]; [send_ok] tells whether the
    awaited [producer.send] resolves. *)
Definition kafka_publish (a : KafkaAdapter) (channelName : string) (payload : V)
    (o : KafkaPublishCall) (send_ok : bool) : list kafka_action * completion :=
  if k_stopping a then ([], Returned)
  else
    let data := if ko_raw o then raw_bytes payload else serialize payload in
    if negb (k_producer a) then ([], Threw TypeError)
    else
      let sent := Send channelName (ko_key o) data (ko_partition o)
                       (ko_acks o) (ko_timeout o) (ko_compression o) in
      if send_ok then ([sent], Returned) else ([sent], Threw TransportError).

End KafkaPublisher.

(** ** Sample inputs *)

Module Sample.

Definition no_str_ge (s : string) (n : Z) : bool := false.

Definition hi : bytes := [Byte.x68; Byte.x69].

Definition dlq (on : bool) : DeadLettering :=
  {| enabled := Some on; queueName := Some "DLQ"; exchangeName := None |}.

Definition orders (budget : option Z) (dl : DeadLettering) : Channel :=
  {| id := "g.orders"; name := "orders"; group := "g"; maxRetries := budget;
     deadLettering := Some dl; amqp := None |}.

Definition first_delivery : Message :=
  {| content := hi; headers := ∅; correlationId := None;
     consumerTag := "amq.ctag-1"; deliveryTag := 1 |}.

Definition always_failing (k : nat) : delivery_env :=
  {| settles := Rejects; publish_result := true; tag := Z.of_nat k + 1 |}.

Definition amqp_options (u : option (list string)) : AmqpOptions :=
  {| url := u; prefetch := Some 10%Z; exchangeOptions := ∅; queueOptions := ∅;
     messageOptions := {| po_fields := ∅; po_headers := None |};
     consumeOptions := ∅ |}.

Definition options (u : option (list string)) : Options :=
  {| opt_maxRetries := Some 3%Z;
     opt_deadLettering :=
       Some {| enabled := Some false; queueName := Some "FAILED_MESSAGES";
               exchangeName := Some "" |};
     opt_amqp := amqp_options u |}.

Definition two_hosts : Options := options (Some ["host1"; "host2"]).

Definition broker_grants (ref : nat) : subscribe_env :=
  {| assertQueue_ok := true; consume_result := Some "amq.ctag-1" |}.

(** The first [n] attempts of a [connect()] find no broker. *)
Definition fails_first (n : nat) (k : nat) : connect_env :=
  {| connect_ok := (n <=? k)%nat; createChannel_ok := true;
     resubscribe_env := broker_grants |}.

Definition ns : option string → option string := prefixTopic (Some "ns").

(** An adapter with prefix ["ns"], connected at the first attempt. *)
Definition connected_once : Adapter :=
  match connect ns 1 (new_adapter two_hosts) (fails_first 0) 0 with
  | Some (a, _) => a
  | None => new_adapter two_hosts
  end.

Definition orders_with_dlq : Channel :=
  orders None {| enabled := Some true; queueName := Some "DLQ";
                 exchangeName := Some "DLX" |}.

(** The service hands the descriptor (object 0) to [subscribe]. *)
Definition subscribed_once : Adapter :=
  (subscribe ns (with_objects {[ 0%nat := orders_with_dlq ]} connected_once)
             0 (broker_grants 0)).1.1.

(** The connection drops and is established again at the first attempt. *)
Definition reconnected : Adapter :=
  match onConnectionClose ns 1 subscribed_once (fails_first 0) with
  | Some (a, _) => a
  | None => subscribed_once
  end.

(** [disconnect()] has set the stopping flag and awaits the close. *)
Definition closing : Adapter := (disconnect_begin connected_once).1.

(** The connection has dropped; the channel object of the lost
    connection is still in place. *)
Definition dropped : Adapter := with_connected false connected_once.

Definition plain_call : PublishCall :=
  {| o_persistent := None; o_ttl := None; o_priority := None;
     o_correlationId := None; o_headers := None; o_raw := false |}.

(** A serializer for string payloads. *)
Definition utf8 (s : string) : bytes := String.list_byte_of_string s.

(** The handler fails at the first two deliveries and then succeeds. *)
Definition fails_twice (k : nat) : delivery_env :=
  {| settles := if (k <? 2)%nat then Rejects else Resolves;
     publish_result := true; tag := Z.of_nat k + 1 |}.

(** A delivery that already carries a redelivery count of 2. *)
Definition counted_delivery : Message :=
  {| content := hi; headers := {[ "x-redelivered-count" := HNum 2 ]};
     correlationId := None; consumerTag := "amq.ctag-1"; deliveryTag := 5 |}.

Definition broker_rejects (ref : nat) : subscribe_env :=
  {| assertQueue_ok := false; consume_result := None |}.

(** The service has created the descriptor (object 0); nothing is
    subscribed yet. *)
Definition with_descriptor : Adapter :=
  with_objects {[ 0%nat := orders_with_dlq ]} connected_once.

Definition always_busy (k : nat) : tracker :=
  {[ "g.orders" := {[ "amq.ctag-1:7" ]} ]}.

(** A trim that knows one blank string. *)
Definition trim_blank (s : string) : string :=
  if String.eqb s " " then "" else s.

Definition kafka_connected : KafkaAdapter :=
  (kafka_connect new_kafka_adapter true true).1.1.

Definition kafka_call : KafkaPublishCall :=
  {| ko_raw := false; ko_key := None; ko_partition := None; ko_acks := None;
     ko_timeout := None; ko_compression := None |}.

(** One message is in flight until the third check. *)
Definition busy_twice (k : nat) : tracker :=
  if (k <? 2)%nat then {[ "g.orders" := {[ "amq.ctag-1:7" ]} ]}
  else {[ "g.orders" := ∅ ]}.

End Sample.

(** * Properties *)

(** ** The consumer callback *)

Section ConsumerFacts.

Variable str_ge : string → Z → bool.

Lemma handler_rejects chan msg res t :
  createConsumerHandler str_ge chan msg Rejects res t =
    (removeChannelActiveMessages (id chan) [messageId msg]
       (addChannelActiveMessages (id chan) [messageId msg] t),
     (onFailure str_ge chan msg res).1,
     (onFailure str_ge chan msg res).2).
Proof.
  unfold createConsumerHandler.
  by destruct (onFailure str_ge chan msg res).
Qed.

Lemma no_budget_not_exhausted chan msg :
  falsy_num (maxRetries chan) = true → retries_exhausted str_ge chan msg = false.
Proof.
  unfold falsy_num, retries_exhausted.
  destruct (maxRetries chan) as [n|]; [|done].
  intros ->%Z.eqb_eq. done.
Qed.

(** Without a retry budget the [catch] block does not stop after the
    negative acknowledgement: it goes on into the redelivery branch. *)
Lemma onFailure_no_budget chan msg :
  falsy_num (maxRetries chan) = true →
  onFailure str_ge chan msg true =
    (Nack msg false false :: redeliverActions chan msg, Returned).
Proof.
  intros H. unfold onFailure.
  by rewrite H, (no_budget_not_exhausted _ _ H).
Qed.

Lemma onFailure_budget_left chan msg n c :
  maxRetries chan = Some n → redeliveryCount msg = HNum c →
  (0 < n)%Z → (c < n)%Z →
  onFailure str_ge chan msg true = (redeliverActions chan msg, Returned).
Proof.
  intros Hn Hc Hpos Hlt. unfold onFailure, retries_exhausted, falsy_num.
  rewrite Hn, Hc. simpl.
  replace (n =? 0)%Z with false by lia.
  replace (n <=? c)%Z with false by lia.
  by rewrite andb_false_r.
Qed.

Lemma onFailure_exhausted chan msg n c dl :
  maxRetries chan = Some n → redeliveryCount msg = HNum c →
  deadLettering chan = Some dl →
  (0 < n)%Z → (n ≤ c)%Z →
  onFailure str_ge chan msg true = (exhaustedActions chan msg, Returned).
Proof.
  intros Hn Hc Hdl Hpos Hle.
  unfold onFailure, retries_exhausted, falsy_num, exhaustedActions.
  rewrite Hn, Hc, Hdl. simpl.
  replace (n =? 0)%Z with false by lia.
  replace (0 <? n)%Z with true by lia.
  replace (n <=? c)%Z with true by lia.
  simpl. by destruct (default false (enabled dl)).
Qed.

Lemma redeliveryCount_absent msg :
  headers msg !! redelivered_key = None → redeliveryCount msg = HNum 1.
Proof. unfold redeliveryCount. by intros ->. Qed.

Lemma headers_requeued msg c newTag :
  redeliveryCount msg = HNum c →
  headers (requeued msg newTag) = <[redelivered_key := HNum (c + 1)]> (headers msg).
Proof. unfold requeued, redeliverOptions. simpl. by intros ->. Qed.

Lemma redeliveryCount_requeued msg c newTag :
  redeliveryCount msg = HNum c → (0 < c)%Z →
  redeliveryCount (requeued msg newTag) = HNum (c + 1).
Proof.
  intros Hc Hpos. unfold redeliveryCount at 1.
  rewrite (headers_requeued _ _ _ Hc), lookup_insert_eq. simpl.
  by replace (c + 1 =? 0)%Z with false by lia.
Qed.

(** A message whose handler always fails goes through [expected]. *)
Lemma lineage_expected chan env N dl :
  maxRetries chan = Some N → deadLettering chan = Some dl → (0 < N)%Z →
  (∀ k, settles (env k) = Rejects) →
  (∀ k, publish_result (env k) = true) →
  ∀ n k msg t c fuel,
    redeliveryCount msg = HNum c → (0 < c)%Z → (c + Z.of_nat n = N)%Z →
    (n < fuel)%nat →
    lineage str_ge fuel chan env k msg t = Some (expected n chan env k msg).
Proof.
  intros HN Hdl Hpos Hrej Hpub.
  induction n as [|n IH]; intros k msg t c fuel Hc Hcpos Hsum Hfuel;
    (destruct fuel as [|fuel]; [lia|]); simpl.
  - rewrite Hrej, Hpub, handler_rejects.
    rewrite (onFailure_exhausted chan msg N c dl) by (done || lia). simpl.
    unfold retries_exhausted. rewrite HN, Hc. simpl.
    replace (0 <? N)%Z with true by lia.
    by replace (N <=? c)%Z with true by lia.
  - rewrite Hrej, Hpub, handler_rejects.
    rewrite (onFailure_budget_left chan msg N c) by (done || lia). simpl.
    unfold retries_exhausted. rewrite HN, Hc. simpl.
    replace (N <=? c)%Z with false by lia. rewrite andb_false_r.
    rewrite (IH (S k) _ _ (c + 1)%Z); [done| |lia|lia|lia].
    by apply redeliveryCount_requeued.
Qed.

(** Without a budget the message is published to its queue again at every
    delivery, so its deliveries never end. *)
Lemma lineage_no_budget_never_ends chan env :
  falsy_num (maxRetries chan) = true →
  (∀ k, settles (env k) = Rejects) →
  (∀ k, publish_result (env k) = true) →
  ∀ fuel k msg t, lineage str_ge fuel chan env k msg t = None.
Proof.
  intros Hno Hrej Hpub. induction fuel as [|fuel IH]; intros k msg t; [done|].
  simpl. rewrite Hrej, Hpub, handler_rejects, (onFailure_no_budget _ _ Hno).
  simpl. by rewrite (no_budget_not_exhausted _ _ Hno), IH.
Qed.

End ConsumerFacts.

(** ** The expected deliveries *)

Lemma expected_length n chan env k msg :
  length (expected n chan env k msg) = S n.
Proof.
  revert k msg. induction n as [|n IH]; intros k msg; simpl; [done|].
  by rewrite IH.
Qed.

Lemma expected_lookup_lt n chan env i :
  ∀ k msg, (i < n)%nat →
    expected n chan env k msg !! i =
      Some (mkDelivery (nth_delivery i env k msg)
                       (redeliverActions chan (nth_delivery i env k msg)) Returned).
Proof.
  revert n. induction i as [|i IH]; intros n k msg Hlt;
    (destruct n as [|n]; [lia|]); simpl; [done|].
  apply IH. lia.
Qed.

Lemma expected_lookup_last n chan env :
  ∀ k msg,
    expected n chan env k msg !! n =
      Some (mkDelivery (nth_delivery n env k msg)
                       (exhaustedActions chan (nth_delivery n env k msg)) Returned).
Proof. induction n as [|n IH]; intros k msg; simpl; [done|apply IH]. Qed.

Lemma nth_delivery_content i env :
  ∀ k msg, content (nth_delivery i env k msg) = content msg.
Proof. induction i as [|i IH]; intros k msg; simpl; [done|]. by rewrite IH. Qed.

Lemma nth_delivery_count i env :
  ∀ k msg c, redeliveryCount msg = HNum c → (0 < c)%Z →
    redeliveryCount (nth_delivery i env k msg) = HNum (c + Z.of_nat i).
Proof.
  induction i as [|i IH]; intros k msg c Hc Hpos; simpl.
  - by rewrite Z.add_0_r.
  - rewrite (IH _ _ (c + 1)%Z); [f_equal; lia| |lia].
    by apply redeliveryCount_requeued.
Qed.

Lemma nth_delivery_headers i env :
  ∀ k msg c, redeliveryCount msg = HNum c → (0 < c)%Z →
    headers (nth_delivery (S i) env k msg) =
      <[redelivered_key := HNum (c + Z.of_nat (S i))]> (headers msg).
Proof.
  induction i as [|i IH]; intros k msg c Hc Hpos.
  - cbn [nth_delivery]. by erewrite headers_requeued by exact Hc.
  - change (nth_delivery (S (S i)) env k msg)
      with (nth_delivery (S i) env (S k) (requeued msg (tag (env (S k))))).
    rewrite (IH _ _ (c + 1)%Z); [| by apply redeliveryCount_requeued | lia].
    erewrite headers_requeued by exact Hc. rewrite insert_insert_eq.
    do 2 f_equal. lia.
Qed.

(** The headers of the [i]-th redelivery publish: those of the first
    delivery with the count set, each publish overwriting the previous
    count. *)
Lemma nth_redeliverOptions i env k msg c :
  redeliveryCount msg = HNum c → (0 < c)%Z →
  redeliverOptions (nth_delivery i env k msg) =
    {| po_fields := ∅;
       po_headers := Some (<[redelivered_key := HNum (c + Z.of_nat i + 1)]> (headers msg)) |}.
Proof.
  intros Hc Hpos. unfold redeliverOptions.
  rewrite (nth_delivery_count i env k msg c Hc Hpos). simpl.
  destruct i as [|i]; simpl.
  - by rewrite Z.add_0_r.
  - change (nth_delivery i env (S k) (requeued msg (tag (env (S k)))))
      with (nth_delivery (S i) env k msg).
    by rewrite (nth_delivery_headers i env k msg c Hc Hpos), insert_insert_eq.
Qed.

Lemma redeliverActions_count chan msg :
  length (filter (λ a, is_redelivery chan a = true) (redeliverActions chan msg)) = 1%nat.
Proof.
  unfold redeliverActions, redeliverOptions.
  rewrite filter_cons_True, filter_cons_False, filter_nil; [done|by simpl|].
  simpl. rewrite !String.eqb_refl. simpl.
  apply bool_decide_eq_true. rewrite lookup_insert_eq. by eexists.
Qed.

Lemma exhaustedActions_count chan msg :
  length (filter (λ a, is_redelivery chan a = true) (exhaustedActions chan msg)) = 0%nat.
Proof.
  unfold exhaustedActions.
  destruct (deadLettering chan) as [dl|]; [|done].
  destruct (default false (enabled dl)); [|by rewrite filter_cons_False].
  rewrite filter_cons_False, filter_cons_False; [done|by simpl|].
  simpl. destruct (queueName dl) as [rk|]; [|done].
  rewrite bool_decide_eq_false_2; [by rewrite andb_false_r|].
  simpl. rewrite lookup_singleton_ne; [by intros [? ?]|done].
Qed.

Lemma expected_redelivery_count n chan env :
  ∀ k msg, redelivery_count chan (expected n chan env k msg) = n.
Proof.
  unfold redelivery_count.
  induction n as [|n IH]; intros k msg; cbn [expected]; rewrite bind_cons.
  - cbn [d_actions mbind list_bind]. by rewrite app_nil_r, exhaustedActions_count.
  - cbn [d_actions]. rewrite filter_app, length_app, IH.
    by rewrite (redeliverActions_count chan msg).
Qed.

Lemma str_or_empty_default o : str_or_empty o = default "" o.
Proof.
  unfold str_or_empty. destruct o as [s|]; simpl; [|done].
  destruct (String.eqb_spec s ""); by subst.
Qed.

(** C1, evaluated on the code.  The claim: with no retry budget a failed
    message is negatively acknowledged without requeue and nothing else is
    done with it.  On a channel with [maxRetries = 0] and dead-lettering
    off, a first delivery whose handler fails is negatively acknowledged
    without requeue, and then also published to the channel's own queue
    with [x-redelivered-count = 2] and acknowledged: the [catch] block has
    no [return] after the drop. *)
Theorem no_budget_drop_falls_through (str_ge : string → Z → bool) (t : tracker) :
  let chan := Sample.orders (Some 0%Z) (Sample.dlq false) in
  let msg := Sample.first_delivery in
  let out := createConsumerHandler str_ge chan msg Rejects true t in
  out.1.2 =
    [Nack msg false false;
     Publish "" (Some "g.orders") Sample.hi
             {| po_fields := ∅;
                po_headers := Some {[ "x-redelivered-count" := HNum 2 ]} |};
     Ack msg]
  ∧ out.2 = Returned.
Proof.
  intros chan msg out. subst out.
  rewrite handler_rejects, onFailure_no_budget by done.
  split; [|done]. simpl. unfold redeliverActions, redeliverOptions.
  repeat f_equal.
Qed.

(** C2.  On a channel whose effective [maxRetries] is [N > 0], a message
    that arrives without a redelivery header and whose handler fails at
    every delivery is delivered [N] times in all.  It is published to the
    channel's own queue exactly [N - 1] times; the [i]-th of these
    deliveries counts [i] (the absent header counting as 1) and republishes
    the same bytes with [x-redelivered-count = i + 1], then acknowledges.
    The last delivery counts [N]: it dead-letters the message and
    acknowledges when dead-lettering is enabled, and negatively
    acknowledges without requeue otherwise.  The broker accepts every
    publish (no write buffer is full). *)
Theorem always_failing_message_is_retried (str_ge : string → Z → bool)
    (chan : Channel) (dl : DeadLettering) (N : Z) (msg : Message)
    (env : nat → delivery_env) (t : tracker) (fuel : nat) :
  maxRetries chan = Some N → (0 < N)%Z →
  deadLettering chan = Some dl →
  headers msg !! redelivered_key = None →
  (∀ k, settles (env k) = Rejects) →
  (∀ k, publish_result (env k) = true) →
  (Z.to_nat N ≤ fuel)%nat →
  ∃ ds,
    lineage str_ge fuel chan env 0 msg t = Some ds
    ∧ length ds = Z.to_nat N
    ∧ redelivery_count chan ds = Z.to_nat (N - 1)
    ∧ (∀ i, (i < Z.to_nat (N - 1))%nat →
         ∃ d, ds !! i = Some d
              ∧ redeliveryCount (d_msg d) = HNum (Z.of_nat i + 1)
              ∧ d_actions d =
                  [Publish "" (Some (queueNameOf chan)) (content msg)
                     {| po_fields := ∅;
                        po_headers :=
                          Some (<[redelivered_key := HNum (Z.of_nat i + 2)]>
                                  (headers msg)) |};
                   Ack (d_msg d)])
    ∧ (∃ d, ds !! Z.to_nat (N - 1) = Some d
            ∧ redeliveryCount (d_msg d) = HNum N
            ∧ content (d_msg d) = content msg
            ∧ d_actions d =
                if default false (enabled dl)
                then [Publish (str_or_empty (exchangeName dl)) (queueName dl)
                              (content msg) (deadLetterOptions chan);
                      Ack (d_msg d)]
                else [Nack (d_msg d) false false]).
Proof.
  intros HN Hpos Hdl Habs Hrej Hpub Hfuel.
  pose proof (redeliveryCount_absent msg Habs) as Hc.
  exists (expected (Z.to_nat (N - 1)) chan env 0 msg).
  split; [|split; [|split; [|split]]].
  - apply (lineage_expected str_ge chan env N dl HN Hdl Hpos Hrej Hpub
             _ 0%nat msg t 1%Z); [done|lia|lia|lia].
  - rewrite expected_length. lia.
  - apply expected_redelivery_count.
  - intros i Hi. eexists. split; [by apply expected_lookup_lt|]. simpl.
    rewrite (nth_delivery_count i env 0%nat msg 1%Z Hc) by lia.
    split; [f_equal; lia|].
    unfold redeliverActions.
    rewrite nth_delivery_content, (nth_redeliverOptions i env 0%nat msg 1%Z Hc) by lia.
    do 6 f_equal. lia.
  - eexists. split; [apply expected_lookup_last|]. simpl.
    rewrite (nth_delivery_count _ env 0%nat msg 1%Z Hc) by lia.
    split; [f_equal; lia|]. split; [apply nth_delivery_content|].
    unfold exhaustedActions. rewrite Hdl, nth_delivery_content. done.
Qed.

(** C5.  On a channel with effective [maxRetries = 2] and dead-lettering
    enabled towards ["DLQ"], a message whose handler fails at every
    delivery is delivered twice.  The second delivery publishes the bytes
    of the original message, under the single header
    [x-original-channel] holding the channel's name, with routing key
    ["DLQ"] to the configured dead-letter exchange (the default exchange
    [""] when none is configured), and then acknowledges the delivery.
    The broker accepts every publish. *)
Theorem exhausted_message_is_dead_lettered (str_ge : string → Z → bool)
    (chan : Channel) (dl : DeadLettering) (msg : Message)
    (env : nat → delivery_env) (t : tracker) (fuel : nat) :
  maxRetries chan = Some 2%Z →
  deadLettering chan = Some dl →
  enabled dl = Some true → queueName dl = Some "DLQ" →
  headers msg !! redelivered_key = None →
  (∀ k, settles (env k) = Rejects) →
  (∀ k, publish_result (env k) = true) →
  (2 ≤ fuel)%nat →
  ∃ d1 d2,
    lineage str_ge fuel chan env 0 msg t = Some [d1; d2]
    ∧ d_msg d1 = msg
    ∧ content (d_msg d2) = content msg
    ∧ d_actions d2 =
        [Publish (default "" (exchangeName dl)) (Some "DLQ") (content msg)
                 {| po_fields := ∅;
                    po_headers :=
                      Some {[ "x-original-channel" := HStr (name chan) ]} |};
         Ack (d_msg d2)]
    ∧ d_completion d2 = Returned.
Proof.
  intros HN Hdl Hon Hq Habs Hrej Hpub Hfuel.
  pose proof (redeliveryCount_absent msg Habs) as Hc.
  rewrite (lineage_expected str_ge chan env 2%Z dl HN Hdl ltac:(lia) Hrej Hpub
             1%nat 0%nat msg t 1%Z) by (done || lia).
  cbn [expected]. do 2 eexists. split; [done|].
  cbn [d_msg d_actions d_completion].
  split; [done|]. split; [done|]. split; [|done].
  unfold exhaustedActions. rewrite Hdl, Hon, Hq. simpl.
  by rewrite str_or_empty_default.
Qed.

(** ** Connecting *)

Section TopologyFacts.

Variable addPrefixTopic : option string → option string.

Lemma subscribe_objects a ref env :
  objects (subscribe addPrefixTopic a ref env).1.1 !! ref =
    backfill addPrefixTopic (opts a) <$> objects a !! ref.
Proof.
  unfold subscribe. destruct (objects a !! ref) as [chan0|] eqn:E.
  - repeat case_match; simpl; by rewrite lookup_insert_eq.
  - simpl. by rewrite E.
Qed.

Lemma subscribe_connectAttempt a ref env :
  connectAttempt (subscribe addPrefixTopic a ref env).1.1 = connectAttempt a.
Proof. unfold subscribe. by repeat case_match. Qed.

Lemma resubscribe_loop_connectAttempt refs env :
  ∀ a, connectAttempt (resubscribe_loop addPrefixTopic refs a env).1.1 =
         connectAttempt a.
Proof.
  induction refs as [|ref refs IH]; intros a; simpl; [done|].
  pose proof (subscribe_connectAttempt a ref (env ref)) as Hs.
  destruct (subscribe addPrefixTopic a ref (env ref)) as [[a1 acts] c].
  simpl in Hs. destruct c; [|done].
  specialize (IH a1).
  destruct (resubscribe_loop addPrefixTopic refs a1 env) as [[a2 acts'] c'].
  simpl in *. congruence.
Qed.

Lemma url_at_mod uri attempt :
  uri ≠ [] → (1 ≤ attempt)%Z →
  url_at uri attempt =
    uri !! Z.to_nat ((attempt - 1) `mod` Z.of_nat (length uri)).
Proof.
  intros Hne Hpos. unfold url_at.
  assert (0 < Z.of_nat (length uri))%Z by (destruct uri; [done|simpl; lia]).
  replace (Z.of_nat (length uri) =? 0)%Z with false by lia.
  rewrite Z.rem_mod_nonneg by lia.
  pose proof (Z.mod_pos_bound (attempt - 1) (Z.of_nat (length uri))).
  by replace (_ <? 0)%Z with false by lia.
Qed.

Lemma tryConnect_connectAttempt a env uri :
  url (opt_amqp (opts a)) = Some uri →
  connectAttempt (tryConnect addPrefixTopic a env).1.1 = (connectAttempt a + 1)%Z.
Proof.
  intros Hurl. unfold tryConnect, pickUri. rewrite Hurl.
  destruct (connect_ok env); [|done]. simpl.
  destruct (createChannel_ok env); [|done]. simpl.
  case_match; [|done].
  unfold resubscribeAllChannels.
  match goal with
  | |- context [resubscribe_loop _ ?refs ?a0 ?e] =>
      pose proof (resubscribe_loop_connectAttempt refs e a0) as Hr;
      destruct (resubscribe_loop addPrefixTopic refs a0 e) as [[a5 acts] c]
  end.
  simpl in *. done.
Qed.

Lemma tryConnect_head a env :
  head (tryConnect addPrefixTopic a env).1.2 = Some (Connect (pickUri a).2).
Proof.
  unfold tryConnect. destruct (pickUri a) as [a1 uri]. simpl.
  destruct (connect_ok env); [|done]. simpl.
  destruct (createChannel_ok env); [|done]. simpl.
  case_match; [|done].
  by destruct (resubscribeAllChannels _ _ _) as [[a5 acts] c].
Qed.

End TopologyFacts.

(** C3, as the code has it.  With a non-empty URL list every connect
    attempt adds one to [connectAttempt] and targets the element at index
    [(connectAttempt - 1) mod length], so successive attempts go round the
    list.  With the list [host1, host2] and the first three attempts
    failing, the attempts target host1, host2, host1, host2: the fourth
    attempt targets host2. *)
Theorem connect_attempts_go_round (addPrefixTopic : option string → option string)
    (a : Adapter) (uri : list string) (env : connect_env) :
  url (opt_amqp (opts a)) = Some uri → uri ≠ [] → (0 ≤ connectAttempt a)%Z →
  let out := tryConnect addPrefixTopic a env in
  connectAttempt out.1.1 = (connectAttempt a + 1)%Z
  ∧ head out.1.2 =
      Some (Connect (uri !! Z.to_nat ((connectAttempt out.1.1 - 1)
                                        `mod` Z.of_nat (length uri))))
  ∧ connect_targets <$>
      (snd <$> connect addPrefixTopic 4 (new_adapter Sample.two_hosts)
                       (Sample.fails_first 3) 0) =
      Some [Some "host1"; Some "host2"; Some "host1"; Some "host2"].
Proof.
  intros Hurl Hne Hpos out. subst out.
  rewrite (tryConnect_connectAttempt _ _ _ _ Hurl), tryConnect_head.
  split; [done|]. split; [|by vm_compute].
  unfold pickUri. rewrite Hurl. simpl.
  by rewrite url_at_mod by (done || lia).
Qed.

(** C3 as stated fails: after three failed attempts on [host1, host2] the
    fourth attempt targets host2, not host1. *)
Lemma fourth_attempt_targets_host2 :
  ∃ a acts,
    connect Sample.ns 4 (new_adapter Sample.two_hosts) (Sample.fails_first 3) 0 =
      Some (a, acts)
    ∧ connect_targets acts !! 3%nat = Some (Some "host2")
    ∧ connect_targets acts !! 3%nat ≠ Some (Some "host1").
Proof.
  eexists _, _. split; [by vm_compute|]. split; [by vm_compute|].
  vm_compute. congruence.
Qed.

(** ** Re-subscription *)

Lemma backfill_prefixes addPrefixTopic o chan dl q e :
  deadLettering chan = Some dl → enabled dl = Some true →
  queueName dl = Some q → exchangeName dl = Some e →
  topologyNames (backfill addPrefixTopic o chan) =
    (addPrefixTopic (Some q), addPrefixTopic (Some e), queueNameOf chan, name chan).
Proof.
  intros Hdl Hon Hq He. unfold topologyNames, backfill, mergeDeadLettering.
  rewrite Hdl. simpl. rewrite Hon, Hq, He. simpl. done.
Qed.

(** C4, evaluated on the code.  The claim: after a reconnect every
    descriptor of the subscription table is subscribed again with the
    dead-letter queue, dead-letter exchange, queue and exchange names it
    had after the first subscription.  With the name prefix ["ns"] and a
    descriptor that dead-letters to queue ["DLQ"] on exchange ["DLX"], the
    first subscription leaves the names ["ns.DLQ"] and ["ns.DLX"]; the
    reconnect subscribes the descriptor again (same queue, same exchange)
    and leaves ["ns.ns.DLQ"] and ["ns.ns.DLX"]: [subscribe] prefixes the
    names it stored in the descriptor at the previous subscription. *)
Theorem reconnect_prefixes_dead_letter_names_again :
  topologyNames <$> objects Sample.subscribed_once !! 0%nat =
    Some (Some "ns.DLQ", Some "ns.DLX", "g.orders", "orders")
  ∧ snd <$> onConnectionClose Sample.ns 1 Sample.subscribed_once (Sample.fails_first 0) =
      Some [SetTimeout 2000; Connect (Some "host2"); CreateChannel; Prefetch 10;
            AssertExchange "orders" "fanout" ∅; AssertQueue "g.orders" ∅;
            BindQueue "g.orders" "orders" ""; Consume "g.orders" 0 ∅]
  ∧ topologyNames <$> objects Sample.reconnected !! 0%nat =
      Some (Some "ns.ns.DLQ", Some "ns.ns.DLX", "g.orders", "orders").
Proof. split; [by vm_compute|]. split; by vm_compute. Qed.

(** ** Unsubscribing *)

Lemma checkPendingMessages_first_idle channelID snap :
  ∀ n fuel k,
    (n < fuel)%nat →
    (∀ j, (j < n)%nat →
       getNumberOfChannelActiveMessages channelID (snap (k + j)%nat) ≠ 0%nat) →
    getNumberOfChannelActiveMessages channelID (snap (k + n)%nat) = 0%nat →
    checkPendingMessages fuel channelID snap k =
      Some (stopChannelActiveMessages channelID (snap (k + n)%nat),
            replicate n (SetTimeout 1000)).
Proof.
  induction n as [|n IH]; intros fuel k Hfuel Hbusy Hidle;
    (destruct fuel as [|fuel]; [lia|]); simpl.
  - rewrite Nat.add_0_r in Hidle. rewrite Hidle. simpl.
    by rewrite Nat.add_0_r.
  - pose proof (Hbusy 0%nat ltac:(lia)) as H0. rewrite Nat.add_0_r in H0.
    destruct (Nat.eqb_spec (getNumberOfChannelActiveMessages channelID (snap k)) 0);
      [done|].
    replace (k + S n)%nat with (S k + n)%nat in * by lia.
    rewrite (IH fuel (S k)); [done | lia | | done].
    intros j Hj. replace (S k + j)%nat with (k + S j)%nat by lia.
    apply Hbusy. lia.
Qed.

Lemma checkPendingMessages_returns channelID snap :
  ∀ fuel k t acts,
    checkPendingMessages fuel channelID snap k = Some (t, acts) →
    ∃ n, (n < fuel)%nat
         ∧ getNumberOfChannelActiveMessages channelID (snap (k + n)%nat) = 0%nat
         ∧ (∀ j, (j < n)%nat →
              getNumberOfChannelActiveMessages channelID (snap (k + j)%nat) ≠ 0%nat)
         ∧ t = stopChannelActiveMessages channelID (snap (k + n)%nat)
         ∧ acts = replicate n (SetTimeout 1000).
Proof.
  induction fuel as [|fuel IH]; intros k t acts Hrun; [done|].
  simpl in Hrun.
  destruct (Nat.eqb_spec (getNumberOfChannelActiveMessages channelID (snap k)) 0)
    as [Hz|Hnz].
  - injection Hrun as <- <-. exists 0%nat. rewrite Nat.add_0_r.
    repeat split; [lia|done|intros; lia].
  - destruct (checkPendingMessages fuel channelID snap (S k)) as [[t' acts']|] eqn:E;
      [|done].
    simpl in Hrun. injection Hrun as <- <-.
    destruct (IH _ _ _ E) as (n & Hn & Hidle & Hbusy & -> & ->).
    exists (S n). replace (k + S n)%nat with (S k + n)%nat by lia.
    repeat split; [lia|done|].
    intros j Hj. destruct j as [|j]; [by rewrite Nat.add_0_r|].
    replace (k + S j)%nat with (S k + j)%nat by lia. apply Hbusy. lia.
Qed.

(** C6.  For a channel that has an entry in the subscription table, on a
    live channel object: a call of [unsubscribe] that returns has first
    cancelled the consumer under its tag, has then waited 1000 ms after
    every check that found messages in flight, and returns at the first
    check that finds the tracker count of the channel id at zero, where it
    stops tracking the channel; no earlier check found zero.  And it does
    return at the first check that finds zero. *)
Theorem unsubscribe_waits_until_idle (fuel : nat) (a : Adapter) (chan : Channel)
    (sub : Subscription) (snap : nat → tracker) :
  table_get (id chan) (subscriptions a) = Some sub → channel a = true →
  (∀ cancel_ok a' acts,
     unsubscribe fuel a chan cancel_ok snap = Some (a', acts, Returned) →
     ∃ n, getNumberOfChannelActiveMessages (id chan) (snap n) = 0%nat
          ∧ (∀ j, (j < n)%nat →
               getNumberOfChannelActiveMessages (id chan) (snap j) ≠ 0%nat)
          ∧ acts = Cancel (sub_consumerTag sub) :: replicate n (SetTimeout 1000)
          ∧ activeMessages a' = stopChannelActiveMessages (id chan) (snap n))
  ∧ (∀ n, (n < fuel)%nat →
       getNumberOfChannelActiveMessages (id chan) (snap n) = 0%nat →
       (∀ j, (j < n)%nat →
          getNumberOfChannelActiveMessages (id chan) (snap j) ≠ 0%nat) →
       unsubscribe fuel a chan true snap =
         Some (with_activeMessages (stopChannelActiveMessages (id chan) (snap n)) a,
               Cancel (sub_consumerTag sub) :: replicate n (SetTimeout 1000),
               Returned)).
Proof.
  intros Hsub Hch. unfold unsubscribe. rewrite Hsub, Hch. simpl. split.
  - intros cancel_ok a' acts Hrun. destruct cancel_ok; simpl in Hrun; [|done].
    destruct (checkPendingMessages fuel (id chan) snap 0) as [[t acts0]|] eqn:E;
      [|done].
    simpl in Hrun. injection Hrun as <- <-.
    destruct (checkPendingMessages_returns _ _ _ _ _ _ E)
      as (n & _ & Hidle & Hbusy & -> & ->).
    exists n. simpl in *. done.
  - intros n Hn Hidle Hbusy.
    by rewrite (checkPendingMessages_first_idle (id chan) snap n fuel 0%nat).
Qed.

(** C10.  [unsubscribe] for a channel id without an entry in the
    subscription table throws a TypeError: nothing is cancelled, nothing is
    waited for, and the adapter is left as it was. *)
Theorem unsubscribe_unknown_channel_throws (fuel : nat) (a : Adapter)
    (chan : Channel) (cancel_ok : bool) (snap : nat → tracker) :
  table_get (id chan) (subscriptions a) = None →
  unsubscribe fuel a chan cancel_ok snap = Some (a, [], Threw TypeError).
Proof. intros H. unfold unsubscribe. by rewrite H. Qed.

(** ** Publishing and disconnecting *)

Section PublisherFacts.

Context {V : Type}.
Variable serialize : V → bytes.
Variable raw_bytes : V → bytes.

Lemma publish_not_stopping a channelName payload o res :
  stopping a = false →
  publish serialize raw_bytes a channelName payload o res ≠ ([], Returned).
Proof.
  intros H. unfold publish. rewrite H.
  destruct (channel a), res; simpl; congruence.
Qed.

End PublisherFacts.

(** C7, as the code has it.  While the stopping flag is set, [publish]
    returns without an error and hands nothing to the transport. *)
Theorem publish_while_stopping_is_silent {V : Type} (serialize raw_bytes : V → bytes)
    (a : Adapter) (channelName : string) (payload : V) (o : PublishCall)
    (res : bool) :
  stopping a = true →
  publish serialize raw_bytes a channelName payload o res = ([], Returned).
Proof. intros H. unfold publish. by rewrite H. Qed.

(** C7 as stated fails for the disconnected state.  An adapter that never
    connected is disconnected and not stopping, and [publish] throws a
    TypeError on the missing channel object; an adapter whose connection
    has dropped is disconnected and not stopping, and [publish] hands the
    payload to the channel object of the lost connection. *)
Lemma publish_while_disconnected_is_not_silent :
  (connected (new_adapter Sample.two_hosts) = false
   ∧ publish Sample.utf8 Sample.utf8 (new_adapter Sample.two_hosts)
             "orders" "x" Sample.plain_call true = ([], Threw TypeError))
  ∧ (connected Sample.dropped = false
     ∧ publish Sample.utf8 Sample.utf8 Sample.dropped
               "orders" "x" Sample.plain_call true =
         ([Publish "orders" (Some "") [Byte.x78]
                   {| po_fields := ∅; po_headers := None |}], Returned))
  ∧ ¬ (∀ a, connected a = false →
            publish Sample.utf8 Sample.utf8 a "orders" "x" Sample.plain_call true =
              ([], Returned)).
Proof.
  split; [by vm_compute|]. split; [by vm_compute|].
  intros H. specialize (H (new_adapter Sample.two_hosts) eq_refl).
  vm_compute in H. congruence.
Qed.

(** C8.  On an adapter that is not stopping and has a channel object, a
    [publish] whose channel-level publish returns [false] makes that one
    publish call and no other, and throws the error "AMQP publish error.
    Write buffer is full." to its caller. *)
Theorem publish_backpressure_is_thrown {V : Type} (serialize raw_bytes : V → bytes)
    (a : Adapter) (channelName : string) (payload : V) (o : PublishCall) :
  stopping a = false → channel a = true →
  ∃ data options,
    publish serialize raw_bytes a channelName payload o false =
      ([Publish channelName (Some "") data options],
       Threw (MoleculerError "AMQP publish error. Write buffer is full."))
    ∧ data = (if o_raw o then raw_bytes payload else serialize payload)
    ∧ length (filter (λ x, is_publish x = true)
                (publish serialize raw_bytes a channelName payload o false).1) = 1%nat.
Proof.
  intros Hs Hc. unfold publish. rewrite Hs, Hc. simpl.
  eexists _, _. split; [done|]. by split.
Qed.

(** C9.  A [disconnect()] that is not called while another one is under
    way leaves the stopping flag unset, whether closing the connection
    resolves or rejects (or there is no connection to close); a [publish]
    after it is therefore not the silent return of the stopping guard. *)
Theorem disconnect_resets_stopping {V : Type} (serialize raw_bytes : V → bytes)
    (a : Adapter) (r : close_result) (channelName : string) (payload : V)
    (o : PublishCall) (res : bool) :
  stopping a = false →
  stopping (disconnect a r).1 = false
  ∧ publish serialize raw_bytes (disconnect a r).1 channelName payload o res
      ≠ ([], Returned).
Proof.
  intros Hs.
  assert (stopping (disconnect a r).1 = false) as Hd.
  { unfold disconnect, disconnect_begin. rewrite Hs. unfold disconnect_finish.
    simpl. by destruct (connection a), r. }
  split; [done|]. by apply publish_not_stopping.
Qed.

(** ** The theorems at sample inputs *)

(** A budget of three, dead-lettering off: three deliveries, two of them
    republished. *)
Lemma always_failing_message_is_retried_witness :
  let chan := Sample.orders (Some 3%Z) (Sample.dlq false) in
  (maxRetries chan = Some 3%Z ∧ (0 < 3)%Z
   ∧ deadLettering chan = Some (Sample.dlq false)
   ∧ headers Sample.first_delivery !! redelivered_key = None
   ∧ (∀ k, settles (Sample.always_failing k) = Rejects)
   ∧ (∀ k, publish_result (Sample.always_failing k) = true)
   ∧ (Z.to_nat 3 ≤ 3)%nat)
  ∧ ∃ ds,
      lineage Sample.no_str_ge 3 chan Sample.always_failing 0
              Sample.first_delivery ∅ = Some ds
      ∧ length ds = 3%nat
      ∧ redelivery_count chan ds = 2%nat.
Proof.
  intros chan.
  assert (Z.to_nat 3 ≤ 3)%nat as Hfuel by (vm_compute; lia).
  split; [repeat split; try done; exact Hfuel|].
  destruct (always_failing_message_is_retried Sample.no_str_ge chan
              (Sample.dlq false) 3%Z Sample.first_delivery Sample.always_failing
              ∅ 3%nat eq_refl eq_refl eq_refl eq_refl
              (λ _, eq_refl) (λ _, eq_refl) Hfuel)
    as (ds & Hrun & Hlen & Hcount & _).
  exists ds. split; [exact Hrun|]. split; [exact Hlen | exact Hcount].
Defined.

(** A budget of two, dead-lettering to ["DLQ"] on the default exchange. *)
Lemma exhausted_message_is_dead_lettered_witness :
  let dl := {| enabled := Some true; queueName := Some "DLQ"; exchangeName := None |} in
  let chan := Sample.orders (Some 2%Z) dl in
  (maxRetries chan = Some 2%Z ∧ deadLettering chan = Some dl
   ∧ enabled dl = Some true ∧ queueName dl = Some "DLQ"
   ∧ headers Sample.first_delivery !! redelivered_key = None
   ∧ (∀ k, settles (Sample.always_failing k) = Rejects)
   ∧ (∀ k, publish_result (Sample.always_failing k) = true)
   ∧ (2 ≤ 2)%nat)
  ∧ ∃ d1 d2,
      lineage Sample.no_str_ge 2 chan Sample.always_failing 0
              Sample.first_delivery ∅ = Some [d1; d2]
      ∧ d_actions d2 =
          [Publish "" (Some "DLQ") Sample.hi
                   {| po_fields := ∅;
                      po_headers := Some {[ "x-original-channel" := HStr "orders" ]} |};
           Ack (d_msg d2)].
Proof.
  intros dl chan.
  split; [repeat split; done|].
  destruct (exhausted_message_is_dead_lettered Sample.no_str_ge chan dl
              Sample.first_delivery Sample.always_failing ∅ 2%nat
              eq_refl eq_refl eq_refl eq_refl eq_refl
              (λ _, eq_refl) (λ _, eq_refl) (le_n 2))
    as (d1 & d2 & Hrun & _ & _ & Hacts & _).
  exists d1, d2. split; [exact Hrun | exact Hacts].
Defined.

(** The second attempt of an adapter configured with [host1, host2]. *)
Lemma connect_attempts_go_round_witness :
  let a := with_connectAttempt 1 (new_adapter Sample.two_hosts) in
  (url (opt_amqp (opts a)) = Some ["host1"; "host2"]
   ∧ ["host1"; "host2"] ≠ ([] : list string)
   ∧ (0 ≤ connectAttempt a)%Z)
  ∧ connectAttempt (tryConnect Sample.ns a (Sample.fails_first 1 0)).1.1 = 2%Z
  ∧ head (tryConnect Sample.ns a (Sample.fails_first 1 0)).1.2 =
      Some (Connect (Some "host2")).
Proof.
  intros a.
  assert (["host1"; "host2"] ≠ ([] : list string)) as Hne by discriminate.
  assert (0 ≤ connectAttempt a)%Z as Hpos by (vm_compute; discriminate).
  split; [repeat split; [exact Hne | exact Hpos]|].
  destruct (connect_attempts_go_round Sample.ns a ["host1"; "host2"]
              (Sample.fails_first 1 0) eq_refl Hne Hpos)
    as (Hcount & Hhead & _).
  split; [exact Hcount | exact Hhead].
Defined.

(** One message of the channel is in flight at the first two checks. *)
Lemma unsubscribe_waits_until_idle_witness :
  let sub := {| sub_chan := 0%nat; sub_consumerTag := "amq.ctag-1" |} in
  (table_get (id Sample.orders_with_dlq) (subscriptions Sample.subscribed_once) = Some sub
   ∧ channel Sample.subscribed_once = true)
  ∧ unsubscribe 5 Sample.subscribed_once Sample.orders_with_dlq true Sample.busy_twice =
      Some (with_activeMessages
              (stopChannelActiveMessages "g.orders" (Sample.busy_twice 2))
              Sample.subscribed_once,
            [Cancel "amq.ctag-1"; SetTimeout 1000; SetTimeout 1000], Returned).
Proof.
  intros sub.
  assert (table_get (id Sample.orders_with_dlq) (subscriptions Sample.subscribed_once)
          = Some sub) as Hsub by (vm_compute; reflexivity).
  assert (channel Sample.subscribed_once = true) as Hch by (vm_compute; reflexivity).
  split; [split; [exact Hsub | exact Hch]|].
  refine (proj2 (unsubscribe_waits_until_idle 5 Sample.subscribed_once
                   Sample.orders_with_dlq sub Sample.busy_twice Hsub Hch)
                2%nat _ _ _).
  - vm_compute. lia.
  - vm_compute. reflexivity.
  - intros j Hj. destruct j as [|[|j]]; [vm_compute; discriminate ..|lia].
Defined.

Lemma unsubscribe_unknown_channel_throws_witness :
  table_get (id Sample.orders_with_dlq) (subscriptions (new_adapter Sample.two_hosts))
    = None
  ∧ unsubscribe 5 (new_adapter Sample.two_hosts) Sample.orders_with_dlq true
                Sample.busy_twice =
      Some (new_adapter Sample.two_hosts, [], Threw TypeError).
Proof.
  split; [reflexivity|].
  apply (unsubscribe_unknown_channel_throws 5 (new_adapter Sample.two_hosts)
           Sample.orders_with_dlq true Sample.busy_twice).
  reflexivity.
Defined.

Lemma publish_while_stopping_is_silent_witness :
  stopping Sample.closing = true
  ∧ publish Sample.utf8 Sample.utf8 Sample.closing "orders" "x"
            Sample.plain_call true = ([], Returned).
Proof.
  assert (stopping Sample.closing = true) as Hs by (vm_compute; reflexivity).
  split; [exact Hs|].
  exact (publish_while_stopping_is_silent Sample.utf8 Sample.utf8 Sample.closing
           "orders" "x" Sample.plain_call true Hs).
Defined.

Lemma publish_backpressure_is_thrown_witness :
  (stopping Sample.connected_once = false ∧ channel Sample.connected_once = true)
  ∧ ∃ data options,
      publish Sample.utf8 Sample.utf8 Sample.connected_once "orders" "x"
              Sample.plain_call false =
        ([Publish "orders" (Some "") data options],
         Threw (MoleculerError "AMQP publish error. Write buffer is full.")).
Proof.
  assert (stopping Sample.connected_once = false) as Hs by (vm_compute; reflexivity).
  assert (channel Sample.connected_once = true) as Hc by (vm_compute; reflexivity).
  split; [split; [exact Hs | exact Hc]|].
  destruct (publish_backpressure_is_thrown Sample.utf8 Sample.utf8
              Sample.connected_once "orders" "x" Sample.plain_call Hs Hc)
    as (data & options & Hrun & _).
  exists data, options. exact Hrun.
Defined.

Lemma disconnect_resets_stopping_witness :
  stopping Sample.connected_once = false
  ∧ stopping (disconnect Sample.connected_once CloseRejects).1 = false
  ∧ publish Sample.utf8 Sample.utf8 (disconnect Sample.connected_once CloseRejects).1
            "orders" "x" Sample.plain_call true ≠ ([], Returned).
Proof.
  assert (stopping Sample.connected_once = false) as Hs by (vm_compute; reflexivity).
  split; [exact Hs|].
  exact (disconnect_resets_stopping Sample.utf8 Sample.utf8 Sample.connected_once
           CloseRejects "orders" "x" Sample.plain_call true Hs).
Defined.

(** * Further properties of the adapter *)

(** ** The consumer callback, beyond the always-failing message *)

Lemma redeliveryCount_present msg c :
  headers msg !! redelivered_key = Some (HNum c) → c ≠ 0%Z →
  redeliveryCount msg = HNum c.
Proof.
  intros H Hc. unfold redeliveryCount. rewrite H. simpl.
  by replace (c =? 0)%Z with false by lia.
Qed.

Lemma handler_resolves str_ge chan msg res t :
  createConsumerHandler str_ge chan msg Resolves res t =
    (removeChannelActiveMessages (id chan) [messageId msg]
       (addChannelActiveMessages (id chan) [messageId msg] t),
     [Ack msg], Returned).
Proof. done. Qed.

Lemma lineage_acked str_ge chan env N :
  maxRetries chan = Some N → (0 < N)%Z →
  (∀ k, publish_result (env k) = true) →
  ∀ n k msg t c fuel,
    redeliveryCount msg = HNum c → (0 < c)%Z → (c + Z.of_nat n ≤ N)%Z →
    (∀ j, (j < n)%nat → settles (env (k + j)%nat) = Rejects) →
    settles (env (k + n)%nat) = Resolves →
    (n < fuel)%nat →
    lineage str_ge fuel chan env k msg t = Some (acked_after n chan env k msg).
Proof.
  intros HN Hpos Hpub.
  induction n as [|n IH]; intros k msg t c fuel Hc Hcpos Hsum Hrej Hres Hfuel;
    (destruct fuel as [|fuel]; [lia|]); cbn [lineage acked_after].
  - rewrite Nat.add_0_r in Hres. by rewrite Hres, handler_resolves.
  - pose proof (Hrej 0%nat ltac:(lia)) as H0. rewrite Nat.add_0_r in H0.
    rewrite H0, Hpub, handler_rejects.
    rewrite (onFailure_budget_left str_ge chan msg N c) by (done || lia).
    cbn [fst snd]. unfold retries_exhausted. rewrite HN, Hc. cbn [js_ge].
    replace (N <=? c)%Z with false by lia. rewrite andb_false_r.
    rewrite (IH (S k) _ _ (c + 1)%Z); [done| |lia|lia| | |lia].
    + by apply redeliveryCount_requeued.
    + intros j Hj. replace (S k + j)%nat with (k + S j)%nat by lia.
      apply Hrej. lia.
    + by replace (S k + n)%nat with (k + S n)%nat by lia.
Qed.

Lemma acked_after_length n chan env :
  ∀ k msg, length (acked_after n chan env k msg) = S n.
Proof. induction n as [|n IH]; intros k msg; simpl; [done|by rewrite IH]. Qed.

Lemma acked_after_lookup_lt n chan env i :
  ∀ k msg, (i < n)%nat →
    acked_after n chan env k msg !! i =
      Some (mkDelivery (nth_delivery i env k msg)
                       (redeliverActions chan (nth_delivery i env k msg)) Returned).
Proof.
  revert n. induction i as [|i IH]; intros n k msg Hlt;
    (destruct n as [|n]; [lia|]); simpl; [done|].
  apply IH. lia.
Qed.

Lemma acked_after_lookup_last n chan env :
  ∀ k msg,
    acked_after n chan env k msg !! n =
      Some (mkDelivery (nth_delivery n env k msg)
                       [Ack (nth_delivery n env k msg)] Returned).
Proof. induction n as [|n IH]; intros k msg; simpl; [done|apply IH]. Qed.

Lemma acked_after_traces n chan env :
  ∀ k msg,
    length (filter (λ a, is_publish a = true)
              (acked_after n chan env k msg ≫= d_actions)) = n
    ∧ Forall (λ a, is_nack a = false) (acked_after n chan env k msg ≫= d_actions).
Proof.
  induction n as [|n IH]; intros k msg; cbn [acked_after]; rewrite bind_cons;
    cbn [d_actions].
  - split; [done|]. by repeat constructor.
  - destruct (IH (S k) (requeued msg (tag (env (S k))))) as [Hp Hn].
    split.
    + rewrite filter_app, length_app, Hp. done.
    + apply Forall_app. split; [by repeat constructor|done].
Qed.

(** X1.  A message whose handler fails [n] times and then succeeds, within
    a budget [maxRetries = N > n], is delivered [n + 1] times: the first
    [n] deliveries republish it to the channel's queue with counts
    [2 .. n + 1] and acknowledge, the last one counts [n + 1] and is only
    acknowledged.  The run holds [n] publishes and no negative
    acknowledgement, so nothing is dropped or dead-lettered. *)
Theorem message_acked_after_retries (str_ge : string → Z → bool) (chan : Channel)
    (N : Z) (msg : Message) (env : nat → delivery_env) (t : tracker)
    (n fuel : nat) :
  maxRetries chan = Some N → (Z.of_nat n < N)%Z →
  headers msg !! redelivered_key = None →
  (∀ j, (j < n)%nat → settles (env j) = Rejects) →
  settles (env n) = Resolves →
  (∀ k, publish_result (env k) = true) →
  (n < fuel)%nat →
  ∃ ds,
    lineage str_ge fuel chan env 0 msg t = Some ds
    ∧ length ds = S n
    ∧ (∀ i, (i < n)%nat →
         ∃ d, ds !! i = Some d
              ∧ d_actions d =
                  [Publish "" (Some (queueNameOf chan)) (content msg)
                     {| po_fields := ∅;
                        po_headers :=
                          Some (<[redelivered_key := HNum (Z.of_nat i + 2)]>
                                  (headers msg)) |};
                   Ack (d_msg d)])
    ∧ (∃ d, ds !! n = Some d
            ∧ redeliveryCount (d_msg d) = HNum (Z.of_nat n + 1)
            ∧ content (d_msg d) = content msg
            ∧ d_actions d = [Ack (d_msg d)]
            ∧ d_completion d = Returned)
    ∧ length (filter (λ a, is_publish a = true) (ds ≫= d_actions)) = n
    ∧ Forall (λ a, is_nack a = false) (ds ≫= d_actions).
Proof.
  intros HN Hn Habs Hrej Hres Hpub Hfuel.
  pose proof (redeliveryCount_absent msg Habs) as Hc.
  exists (acked_after n chan env 0 msg).
  split; [|split; [|split; [|split]]].
  - apply (lineage_acked str_ge chan env N HN ltac:(lia) Hpub n 0%nat msg t 1%Z);
      [done|lia|lia|done|done|done].
  - apply acked_after_length.
  - intros i Hi. eexists. split; [by apply acked_after_lookup_lt|]. simpl.
    unfold redeliverActions.
    rewrite nth_delivery_content, (nth_redeliverOptions i env 0%nat msg 1%Z Hc) by lia.
    do 6 f_equal. lia.
  - eexists. split; [apply acked_after_lookup_last|]. simpl.
    rewrite (nth_delivery_count _ env 0%nat msg 1%Z Hc) by lia.
    split; [f_equal; lia|]. split; [apply nth_delivery_content|done].
  - apply acked_after_traces.
Qed.

(** X2.  When the handler fails and the channel-level publish reports a
    full write buffer, the callback never acknowledges the delivery, and
    whenever it has published it throws the write-buffer error. *)
Theorem failed_publish_is_never_acked (str_ge : string → Z → bool) (chan : Channel)
    (msg : Message) (t : tracker) :
  let out := createConsumerHandler str_ge chan msg Rejects false t in
  Forall (λ a, is_ack a = false) out.1.2
  ∧ (Exists (λ a, is_publish a = true) out.1.2 → out.2 = Threw write_buffer_full).
Proof.
  intros out. subst out. rewrite handler_rejects. unfold onFailure.
  destruct (falsy_num (maxRetries chan)), (retries_exhausted str_ge chan msg);
    try destruct (deadLettering chan) as [dl|];
    try destruct (default false (enabled dl));
    cbn; (split; [by repeat constructor|]); try done;
    intros Hex; repeat (apply Exists_cons in Hex as [Hex|Hex]; [done|]);
    by apply Exists_nil in Hex.
Qed.

(** X3.  On a descriptor with a non-zero [maxRetries] (and the
    dead-lettering record that [subscribe] writes), a callback whose
    publish, if any, is accepted returns normally and settles the delivery
    exactly once, by one acknowledgement or one negative acknowledgement,
    whatever the handler did. *)
Theorem delivery_settled_once (str_ge : string → Z → bool) (chan : Channel)
    (dl : DeadLettering) (n : Z) (msg : Message) (outcome : settlement)
    (t : tracker) :
  maxRetries chan = Some n → n ≠ 0%Z → deadLettering chan = Some dl →
  let out := createConsumerHandler str_ge chan msg outcome true t in
  out.2 = Returned ∧ settle_count out.1.2 = 1%nat.
Proof.
  intros Hn Hnz Hdl out. subst out. destruct outcome; [done|].
  rewrite handler_rejects. unfold onFailure, falsy_num. rewrite Hn, Hdl.
  replace (n =? 0)%Z with false by lia.
  destruct (retries_exhausted str_ge chan msg);
    try destruct (default false (enabled dl)); by cbn.
Qed.

(** X4.  With a budget that is absent, zero or negative, no delivery of an
    always-failing message is the last one: each delivery ends by
    publishing the message to the channel's queue again and acknowledging,
    and the message is still being redelivered after any number of
    deliveries. *)
Theorem nonpositive_budget_redelivers_forever (str_ge : string → Z → bool)
    (chan : Channel) (env : nat → delivery_env) :
  (∀ n, maxRetries chan = Some n → (n ≤ 0)%Z) →
  (∀ k, settles (env k) = Rejects) →
  (∀ k, publish_result (env k) = true) →
  (∀ msg t,
     (createConsumerHandler str_ge chan msg Rejects true t).1.2 =
       (if falsy_num (maxRetries chan) then [Nack msg false false] else []) ++
       [Publish "" (Some (queueNameOf chan)) (content msg) (redeliverOptions msg);
        Ack msg])
  ∧ (∀ fuel k msg t, lineage str_ge fuel chan env k msg t = None).
Proof.
  intros Hneg Hrej Hpub.
  assert (∀ msg, retries_exhausted str_ge chan msg = false) as Hex.
  { intros msg. unfold retries_exhausted.
    destruct (maxRetries chan) as [n|] eqn:E; [|done].
    specialize (Hneg n eq_refl). by replace (0 <? n)%Z with false by lia. }
  assert (∀ msg,
            onFailure str_ge chan msg true =
              ((if falsy_num (maxRetries chan) then [Nack msg false false] else [])
                 ++ redeliverActions chan msg, Returned)) as Hfail.
  { intros msg. unfold onFailure. by rewrite Hex. }
  split.
  - intros msg t. by rewrite handler_rejects, Hfail.
  - induction fuel as [|fuel IH]; intros k msg t; [done|].
    cbn [lineage]. rewrite Hrej, Hpub, handler_rejects, Hfail. cbn [fst snd].
    by rewrite Hex, IH.
Qed.

(** X5.  Redelivery keeps what the publisher sent: at every redelivery the
    message has the payload bytes of the first delivery and, under every
    header name other than [x-redelivered-count], the header value of the
    first delivery. *)
Theorem redelivery_keeps_payload_and_headers (i : nat) (env : nat → delivery_env)
    (k : nat) (msg : Message) (key : string) :
  key ≠ redelivered_key →
  content (nth_delivery i env k msg) = content msg
  ∧ headers (nth_delivery i env k msg) !! key = headers msg !! key.
Proof.
  intros Hkey. split; [apply nth_delivery_content|].
  revert k msg. induction i as [|i IH]; intros k msg; cbn [nth_delivery]; [done|].
  rewrite IH. unfold requeued, redeliverOptions. cbn.
  by rewrite lookup_insert_ne.
Qed.

(** X6.  A message that arrives with a redelivery count [c ≥ 1] already in
    its header is redelivered [max (N - c) 0] more times before the budget
    [N > 0] is found used up: at once when [c ≥ N]. *)
Theorem preset_count_shortens_retries (str_ge : string → Z → bool) (chan : Channel)
    (dl : DeadLettering) (N c : Z) (msg : Message) (env : nat → delivery_env)
    (t : tracker) (fuel : nat) :
  maxRetries chan = Some N → (0 < N)%Z →
  deadLettering chan = Some dl →
  headers msg !! redelivered_key = Some (HNum c) → (0 < c)%Z →
  (∀ k, settles (env k) = Rejects) →
  (∀ k, publish_result (env k) = true) →
  (Z.to_nat (N - c) < fuel)%nat →
  ∃ ds,
    lineage str_ge fuel chan env 0 msg t = Some ds
    ∧ length ds = S (Z.to_nat (N - c))
    ∧ redelivery_count chan ds = Z.to_nat (N - c)
    ∧ (∃ d, ds !! Z.to_nat (N - c) = Some d
            ∧ d_actions d =
                if default false (enabled dl)
                then [Publish (str_or_empty (exchangeName dl)) (queueName dl)
                              (content msg) (deadLetterOptions chan);
                      Ack (d_msg d)]
                else [Nack (d_msg d) false false]).
Proof.
  intros HN Hpos Hdl Hhdr Hc Hrej Hpub Hfuel.
  pose proof (redeliveryCount_present msg c Hhdr ltac:(lia)) as Hcount.
  exists (expected (Z.to_nat (N - c)) chan env 0 msg).
  split; [|split; [|split]].
  - destruct (Z_lt_le_dec c N) as [Hlt|Hge].
    + apply (lineage_expected str_ge chan env N dl HN Hdl Hpos Hrej Hpub
               _ 0%nat msg t c); [done|lia|lia|lia].
    + replace (Z.to_nat (N - c)) with 0%nat in * by lia.
      destruct fuel as [|fuel]; [lia|]. cbn [lineage expected].
      rewrite Hrej, Hpub, handler_rejects.
      rewrite (onFailure_exhausted str_ge chan msg N c dl) by (done || lia).
      cbn [fst snd]. unfold retries_exhausted. rewrite HN, Hcount. cbn [js_ge].
      replace (0 <? N)%Z with true by lia.
      by replace (N <=? c)%Z with true by lia.
  - apply expected_length.
  - apply expected_redelivery_count.
  - eexists. split; [apply expected_lookup_last|]. simpl.
    unfold exhaustedActions. by rewrite Hdl, nth_delivery_content.
Qed.

(** ** connect *)

Section ConnectFacts.

Variable addPrefixTopic : option string → option string.

Lemma tryConnect_refused a env uri :
  url (opt_amqp (opts a)) = Some uri → connect_ok env = false →
  tryConnect addPrefixTopic a env =
    (with_connectAttempt (connectAttempt a + 1) a,
     [Connect (url_at uri (connectAttempt a + 1))], Threw TransportError).
Proof. intros Hurl Hno. unfold tryConnect, pickUri. by rewrite Hurl, Hno. Qed.

Lemma tryConnect_first a env uri :
  url (opt_amqp (opts a)) = Some uri → connectionCount a = 0%Z →
  connect_ok env = true → createChannel_ok env = true →
  ∃ a' acts,
    tryConnect addPrefixTopic a env = (a', acts, Returned)
    ∧ connect_targets acts = [url_at uri (connectAttempt a + 1)]
    ∧ timeouts acts = []
    ∧ consumed acts = []
    ∧ connected a' = true ∧ connection a' = true ∧ channel a' = true
    ∧ connectionCount a' = 1%Z
    ∧ connectAttempt a' = (connectAttempt a + 1)%Z
    ∧ subscriptions a' = subscriptions a.
Proof.
  intros Hurl Hcount Hok Hch. unfold tryConnect, pickUri.
  rewrite Hurl, Hok, Hch. cbn. rewrite Hcount. cbn.
  eexists _, _. split; [done|].
  by destruct (prefetch (opt_amqp (opts a))).
Qed.

Lemma connect_after_refusals uri envs :
  ∀ n fuel a k,
    url (opt_amqp (opts a)) = Some uri → connectionCount a = 0%Z →
    (∀ j, (j < n)%nat → connect_ok (envs (k + j)%nat) = false) →
    connect_ok (envs (k + n)%nat) = true →
    createChannel_ok (envs (k + n)%nat) = true →
    (n < fuel)%nat →
    ∃ a' acts,
      connect addPrefixTopic fuel a envs k = Some (a', acts)
      ∧ timeouts acts = replicate n 2000%Z
      ∧ connect_targets acts =
          map (λ j, url_at uri (connectAttempt a + Z.of_nat j + 1)) (seq 0 (S n))
      ∧ consumed acts = []
      ∧ connected a' = true ∧ connection a' = true ∧ channel a' = true
      ∧ connectionCount a' = 1%Z
      ∧ connectAttempt a' = (connectAttempt a + Z.of_nat n + 1)%Z
      ∧ subscriptions a' = subscriptions a.
Proof.
  induction n as [|n IH]; intros fuel a k Hurl Hcount Hno Hok Hch Hfuel;
    (destruct fuel as [|fuel]; [lia|]); cbn [connect].
  - rewrite Nat.add_0_r in Hok, Hch.
    destruct (tryConnect_first a (envs k) uri Hurl Hcount Hok Hch)
      as (a' & acts & -> & Ht & Hs & Hc & H).
    exists a', acts. split; [done|]. cbn [replicate seq map].
    rewrite Z.add_0_r. by rewrite Ht, Hs, Hc.
  - pose proof (Hno 0%nat ltac:(lia)) as H0. rewrite Nat.add_0_r in H0.
    rewrite (tryConnect_refused a (envs k) uri Hurl H0).
    destruct (IH fuel (with_connectAttempt (connectAttempt a + 1) a) (S k))
      as (a' & acts & -> & Ht & Hs & Hc & Hcd & Hcn & Hchn & Hcc & Hca & Hsub);
      [done|done| | | |lia|].
    + intros j Hj. replace (S k + j)%nat with (k + S j)%nat by lia.
      apply Hno. lia.
    + by replace (S k + n)%nat with (k + S n)%nat by lia.
    + by replace (S k + n)%nat with (k + S n)%nat by lia.
    + exists a', (Connect (url_at uri (connectAttempt a + 1)) :: SetTimeout 2000 :: acts).
      split; [done|].
      unfold with_connectAttempt in Hs, Hca. cbn [connectAttempt] in Hs, Hca.
      change (timeouts (Connect (url_at uri (connectAttempt a + 1))
                          :: SetTimeout 2000 :: acts))
        with (2000%Z :: timeouts acts).
      change (connect_targets (Connect (url_at uri (connectAttempt a + 1))
                                 :: SetTimeout 2000 :: acts))
        with (url_at uri (connectAttempt a + 1) :: connect_targets acts).
      change (consumed (Connect (url_at uri (connectAttempt a + 1))
                          :: SetTimeout 2000 :: acts))
        with (consumed acts).
      rewrite Ht, Hs, Hc. repeat split; try done; [|lia].
      change (seq 0 (S (S n))) with (0%nat :: seq 1 (S n)).
      cbn [map]. f_equal; [f_equal; lia|].
      rewrite <- seq_shift, map_map.
      apply map_ext. intros j. f_equal. lia.
Qed.

End ConnectFacts.

(** X7.  A first [connect()] that is refused [n] times and then finds the
    broker returns after exactly [n] waits of 2000 ms, one after each
    refusal.  Attempt [j] (from 0) targeted the URL at index
    [connectAttempt + j] modulo the list length; the adapter ends
    connected, with a channel, [connectionCount = 1] and [connectAttempt]
    advanced by [n + 1], and nothing was subscribed. *)
Theorem connect_waits_two_seconds_per_refusal
    (addPrefixTopic : option string → option string) (a : Adapter)
    (uri : list string) (envs : nat → connect_env) (n fuel : nat) :
  url (opt_amqp (opts a)) = Some uri → connectionCount a = 0%Z →
  (∀ j, (j < n)%nat → connect_ok (envs j) = false) →
  connect_ok (envs n) = true → createChannel_ok (envs n) = true →
  (n < fuel)%nat →
  ∃ a' acts,
    connect addPrefixTopic fuel a envs 0 = Some (a', acts)
    ∧ timeouts acts = replicate n 2000%Z
    ∧ connect_targets acts =
        map (λ j, url_at uri (connectAttempt a + Z.of_nat j + 1)) (seq 0 (S n))
    ∧ consumed acts = []
    ∧ connected a' = true ∧ connection a' = true ∧ channel a' = true
    ∧ connectionCount a' = 1%Z
    ∧ connectAttempt a' = (connectAttempt a + Z.of_nat n + 1)%Z.
Proof.
  intros Hurl Hcount Hno Hok Hch Hfuel.
  destruct (connect_after_refusals addPrefixTopic uri envs n fuel a 0%nat
              Hurl Hcount Hno Hok Hch Hfuel)
    as (a' & acts & H1 & H2 & H3 & H4 & H5 & H6 & H7 & H8 & H9 & _).
  exists a', acts. repeat split; done.
Qed.

(** ** The subscription table *)

Lemma table_get_set_eq {V : Type} k (v : V) m : table_get k (table_set k v m) = Some v.
Proof.
  induction m as [|[k' v'] m IH]; simpl.
  - by rewrite String.eqb_refl.
  - destruct (String.eqb_spec k k'); simpl.
    + by rewrite String.eqb_refl.
    + destruct (String.eqb_spec k k'); [done|apply IH].
Qed.

Lemma table_get_set_ne {V : Type} k k' (v : V) m :
  k ≠ k' → table_get k' (table_set k v m) = table_get k' m.
Proof.
  intros Hne. induction m as [|[k0 v0] m IH]; simpl.
  - destruct (String.eqb_spec k' k); [congruence|done].
  - destruct (String.eqb_spec k k0) as [->|]; simpl.
    + destruct (String.eqb_spec k' k0); [congruence|done].
    + destruct (String.eqb_spec k' k0); [done|apply IH].
Qed.

Lemma table_set_keys_known {V : Type} k (v : V) m :
  k ∈ map fst m → map fst (table_set k v m) = map fst m.
Proof.
  induction m as [|[k' v'] m IH]; simpl; intros Hin.
  - by apply elem_of_nil in Hin.
  - destruct (String.eqb_spec k k') as [->|Hne]; [done|]. simpl. f_equal.
    apply IH. apply elem_of_cons in Hin as [|]; [congruence|done].
Qed.

Lemma table_set_keys_new {V : Type} k (v : V) m :
  k ∉ map fst m → map fst (table_set k v m) = map fst m ++ [k].
Proof.
  induction m as [|[k' v'] m IH]; simpl; intros Hin; [done|].
  destruct (String.eqb_spec k k') as [->|Hne].
  - exfalso. apply Hin. by left.
  - simpl. f_equal. apply IH. intros H. apply Hin. by right.
Qed.

Lemma Forall_table_set {V : Type} (P : string * V → Prop) k v m :
  Forall P m → P (k, v) → Forall P (table_set k v m).
Proof.
  intros Hm Hv. induction Hm as [|[k' v'] m Hx Hm IH]; simpl.
  - by constructor.
  - destruct (String.eqb_spec k k'); by constructor.
Qed.

Section SubscribeFacts.

Variable addPrefixTopic : option string → option string.

Lemma backfill_id o chan : id (backfill addPrefixTopic o chan) = id chan.
Proof. done. Qed.

Lemma subscribe_granted a ref env chan0 consumerTag :
  objects a !! ref = Some chan0 → channel a = true →
  assertQueue_ok env = true → consume_result env = Some consumerTag →
  let chan := backfill addPrefixTopic (opts a) chan0 in
  subscribe addPrefixTopic a ref env =
    (with_subscriptions
       (table_set (id chan0) (mkSubscription ref consumerTag) (subscriptions a))
       (with_activeMessages
          (initChannelActiveMessages (id chan0) (activeMessages a))
          (with_objects (<[ref := chan]> (objects a)) a)),
     [AssertExchange (name chan0) "fanout"
        (mergeBag chan c_exchangeOptions (exchangeOptions (opt_amqp (opts a))));
      AssertQueue (queueNameOf chan0)
        (mergeBag chan c_queueOptions (queueOptions (opt_amqp (opts a))));
      BindQueue (queueNameOf chan0) (name chan0) "";
      Consume (queueNameOf chan0) ref
        (mergeBag chan c_consumeOptions (consumeOptions (opt_amqp (opts a))))],
     Returned).
Proof.
  intros Hobj Hch Hq Hc chan. unfold subscribe.
  rewrite Hobj. cbn. by rewrite Hch, Hq, Hc.
Qed.

Lemma subscribe_consistent a ref env :
  table_consistent a → table_consistent (subscribe addPrefixTopic a ref env).1.1.
Proof.
  intros Hcons. unfold subscribe.
  destruct (objects a !! ref) as [chan0|] eqn:Hobj; [|done].
  assert (Forall (λ e : string * Subscription,
            id <$> <[ref := backfill addPrefixTopic (opts a) chan0]> (objects a)
                     !! sub_chan e.2 = Some e.1) (subscriptions a)) as Hcons'.
  { unfold table_consistent in Hcons. eapply Forall_impl; [exact Hcons|].
    intros [k sub] He. cbn in *.
    destruct (decide (ref = sub_chan sub)) as [Heq|Hne].
    - rewrite <- Heq in *. rewrite lookup_insert_eq. rewrite Hobj in He.
      by cbn in *.
    - by rewrite lookup_insert_ne. }
  repeat case_match; cbn; try exact Hcons'.
  unfold table_consistent. cbn. apply Forall_table_set; [exact Hcons'|].
  cbn. by rewrite lookup_insert_eq.
Qed.

Lemma subscribe_failure_keeps_table a ref env e :
  (subscribe addPrefixTopic a ref env).2 = Threw e →
  subscriptions (subscribe addPrefixTopic a ref env).1.1 = subscriptions a.
Proof. unfold subscribe. by repeat case_match. Qed.

Lemma consistent_known a :
  table_consistent a → Forall (known a) (table_refs a).
Proof.
  unfold table_consistent, table_refs, table_keys, known.
  intros Hcons. apply Forall_fmap. apply Forall_forall.
  intros [k sub] Hin. cbn.
  pose proof (proj1 (Forall_forall _ _) Hcons _ Hin) as He. cbn in He.
  destruct (objects a !! sub_chan sub) as [chan|]; [|done].
  exists chan. split; [done|]. cbn in He. injection He as He. rewrite He.
  apply list_elem_of_fmap. by exists (k, sub).
Qed.

Lemma subscribe_step a ref env :
  known a ref → channel a = true → table_consistent a → granted env →
  ∃ a1 acts,
    subscribe addPrefixTopic a ref env = (a1, acts, Returned)
    ∧ consumed acts = [ref]
    ∧ channel a1 = true
    ∧ table_keys a1 = table_keys a
    ∧ table_consistent a1
    ∧ (∀ r, known a r → known a1 r).
Proof.
  intros (chan0 & Hobj & Hkey) Hch Hcons [Hq [consumerTag Hc]].
  pose proof (subscribe_consistent a ref env Hcons) as Hcons1.
  rewrite (subscribe_granted a ref env chan0 consumerTag Hobj Hch Hq Hc) in *.
  eexists _, _. split; [done|]. split; [done|]. split; [done|].
  assert (table_keys
            (with_subscriptions
               (table_set (id chan0) (mkSubscription ref consumerTag) (subscriptions a))
               (with_activeMessages
                  (initChannelActiveMessages (id chan0) (activeMessages a))
                  (with_objects
                     (<[ref := backfill addPrefixTopic (opts a) chan0]> (objects a)) a)))
          = table_keys a) as Hkeys.
  { unfold table_keys. cbn. by apply table_set_keys_known. }
  split; [exact Hkeys|]. split; [exact Hcons1|].
  intros r (chan & Hr & Hin). unfold known. rewrite Hkeys. cbn.
  destruct (decide (ref = r)) as [<-|Hne].
  - rewrite lookup_insert_eq. eexists. split; [done|].
    rewrite backfill_id. congruence.
  - rewrite lookup_insert_ne by done. by exists chan.
Qed.

Lemma resubscribe_loop_granted env :
  ∀ refs a,
    channel a = true → table_consistent a → Forall (known a) refs →
    Forall (λ r, granted (env r)) refs →
    ∃ a' acts,
      resubscribe_loop addPrefixTopic refs a env = (a', acts, Returned)
      ∧ consumed acts = refs
      ∧ channel a' = true
      ∧ table_keys a' = table_keys a
      ∧ table_consistent a'.
Proof.
  induction refs as [|ref refs IH]; intros a Hch Hcons Hknown Hgr;
    cbn [resubscribe_loop].
  - by exists a, [].
  - apply Forall_cons in Hknown as [Hk Hknown].
    apply Forall_cons in Hgr as [Hg Hgr].
    destruct (subscribe_step a ref (env ref) Hk Hch Hcons Hg)
      as (a1 & acts & -> & Hc1 & Hch1 & Hkeys1 & Hcons1 & Hmono).
    destruct (IH a1 Hch1 Hcons1) as (a2 & acts' & -> & Hc2 & Hch2 & Hkeys2 & Hcons2);
      [by eapply Forall_impl; [exact Hknown|]|done|].
    exists a2, (acts ++ acts'). split; [done|].
    unfold consumed in *. rewrite omap_app, Hc1, Hc2.
    repeat split; [done|congruence|done].
Qed.

Lemma resubscribe_loop_stops env :
  ∀ pre a ref post,
    channel a = true → table_consistent a →
    Forall (known a) pre → known a ref →
    Forall (λ r, granted (env r)) pre →
    assertQueue_ok (env ref) = false →
    ∃ a' acts,
      resubscribe_loop addPrefixTopic (pre ++ ref :: post) a env =
        (a', acts, Threw TransportError)
      ∧ consumed acts = pre
      ∧ table_keys a' = table_keys a.
Proof.
  induction pre as [|r pre IH]; intros a ref post Hch Hcons Hknown Hk Hgr Hno;
    cbn [app resubscribe_loop].
  - destruct Hk as (chan0 & Hobj & _).
    unfold subscribe. rewrite Hobj. cbn. rewrite Hch, Hno. cbn.
    eexists _, _. by repeat split.
  - apply Forall_cons in Hknown as [Hkr Hknown].
    apply Forall_cons in Hgr as [Hg Hgr].
    destruct (subscribe_step a r (env r) Hkr Hch Hcons Hg)
      as (a1 & acts & -> & Hc1 & Hch1 & Hkeys1 & Hcons1 & Hmono).
    destruct (IH a1 ref post Hch1 Hcons1) as (a2 & acts' & -> & Hc2 & Hk2);
      [by eapply Forall_impl; [exact Hknown|]|by apply Hmono|done|done|].
    exists a2, (acts ++ acts'). split; [done|]. unfold consumed in *.
    rewrite omap_app, Hc1, Hc2. split; [done|congruence].
Qed.

End SubscribeFacts.

Lemma first_defined_idem {A : Type} (x y : option A) :
  first_defined (first_defined x y) y = first_defined x y.
Proof. by destruct x, y. Qed.

(** X8.  A [subscribe] that the broker lets through registers the channel
    under its id with the new consumer tag and touches no other entry.  An
    id that is already in the table keeps its place, a new one goes to the
    end; the descriptor object holds the back-filled defaults. *)
Theorem subscribe_registers_channel (addPrefixTopic : option string → option string)
    (a : Adapter) (ref : nat) (env : subscribe_env) (chan0 : Channel)
    (consumerTag : string) :
  objects a !! ref = Some chan0 → channel a = true →
  assertQueue_ok env = true → consume_result env = Some consumerTag →
  let out := subscribe addPrefixTopic a ref env in
  out.2 = Returned
  ∧ table_get (id chan0) (subscriptions out.1.1) = Some (mkSubscription ref consumerTag)
  ∧ (∀ k, k ≠ id chan0 →
       table_get k (subscriptions out.1.1) = table_get k (subscriptions a))
  ∧ table_keys out.1.1 =
      (if decide (id chan0 ∈ table_keys a) then table_keys a
       else table_keys a ++ [id chan0])
  ∧ objects out.1.1 !! ref = Some (backfill addPrefixTopic (opts a) chan0).
Proof.
  intros Hobj Hch Hq Hc out. subst out.
  rewrite (subscribe_granted addPrefixTopic a ref env chan0 consumerTag Hobj Hch Hq Hc).
  cbn. split; [done|]. split; [apply table_get_set_eq|].
  split; [intros k Hk; by apply table_get_set_ne|].
  split; [|by rewrite lookup_insert_eq].
  unfold table_keys. cbn. case_decide.
  - by apply table_set_keys_known.
  - by apply table_set_keys_new.
Qed.

(** X9.  A [subscribe] that throws, for whatever reason (unknown
    descriptor, no channel object, a rejected [assertQueue] or [consume]),
    leaves the subscription table as it was and registers no consumer tag;
    before it throws on a rejected [assertQueue] it has asked for no
    binding and no consumer. *)
Theorem failed_subscribe_registers_nothing
    (addPrefixTopic : option string → option string) (a : Adapter) (ref : nat)
    (env : subscribe_env) (e : error) :
  (subscribe addPrefixTopic a ref env).2 = Threw e →
  subscriptions (subscribe addPrefixTopic a ref env).1.1 = subscriptions a
  ∧ (assertQueue_ok env = false →
     consumed (subscribe addPrefixTopic a ref env).1.2 = []).
Proof.
  intros H. split; [by eapply subscribe_failure_keeps_table|].
  intros Hno. unfold subscribe. rewrite Hno.
  by repeat case_match.
Qed.

(** X10.  Invariant of the subscription table: every entry refers to a
    stored descriptor whose id is the entry's key.  [subscribe] keeps it
    whatever the broker answers, also when it throws after it has written
    the defaults into the descriptor. *)
Theorem subscribe_keeps_table_consistent
    (addPrefixTopic : option string → option string) (a : Adapter) (ref : nat)
    (env : subscribe_env) :
  table_consistent a →
  table_consistent (subscribe addPrefixTopic a ref env).1.1.
Proof. apply subscribe_consistent. Qed.

(** X11.  When the broker lets every re-subscription through,
    [resubscribeAllChannels] returns normally having registered a consumer
    for every entry of the table, once each and in the table's insertion
    order; the table has the same ids in the same order afterwards. *)
Theorem resubscribeAllChannels_covers_table
    (addPrefixTopic : option string → option string) (a : Adapter)
    (env : nat → subscribe_env) :
  channel a = true → table_consistent a →
  (∀ r, r ∈ table_refs a → granted (env r)) →
  ∃ a' acts,
    resubscribeAllChannels addPrefixTopic a env = (a', acts, Returned)
    ∧ consumed acts = table_refs a
    ∧ table_keys a' = table_keys a
    ∧ table_consistent a'.
Proof.
  intros Hch Hcons Hgr. unfold resubscribeAllChannels.
  destruct (resubscribe_loop_granted addPrefixTopic env (table_refs a) a Hch Hcons)
    as (a' & acts & Hrun & Hc & _ & Hk & Hcons');
    [by apply consistent_known|by apply Forall_forall|].
  exists a', acts. by rewrite <- Hrun.
Qed.

(** X12.  [resubscribeAllChannels] stops at the first entry whose
    [assertQueue] the broker rejects: it throws, the entries before it
    have a consumer again, the rejected entry and all entries after it
    have none. *)
Theorem resubscribeAllChannels_stops_at_rejection
    (addPrefixTopic : option string → option string) (a : Adapter)
    (env : nat → subscribe_env) (pre post : list nat) (ref : nat) :
  channel a = true → table_consistent a →
  table_refs a = pre ++ ref :: post →
  Forall (λ r, granted (env r)) pre →
  assertQueue_ok (env ref) = false →
  ∃ a' acts,
    resubscribeAllChannels addPrefixTopic a env = (a', acts, Threw TransportError)
    ∧ consumed acts = pre
    ∧ table_keys a' = table_keys a.
Proof.
  intros Hch Hcons Hrefs Hgr Hno.
  pose proof (consistent_known a Hcons) as Hknown. rewrite Hrefs in Hknown.
  apply Forall_app in Hknown as [Hpre Hrest].
  apply Forall_cons in Hrest as [Hk _].
  unfold resubscribeAllChannels. fold (table_refs a). rewrite Hrefs.
  by apply resubscribe_loop_stops.
Qed.

(** X13.  Back-filling a descriptor a second time changes nothing when
    its effective dead-lettering is not enabled, or when [addPrefixTopic]
    returns every name as it is: such a descriptor comes out of any number
    of re-subscriptions as it came out of the first subscription. *)
Theorem backfill_twice_is_backfill_once
    (addPrefixTopic : option string → option string) (o : Options) (chan : Channel) :
  default false
    (enabled (mergeDeadLettering (deadLettering chan) (opt_deadLettering o))) = false
  ∨ (∀ x, addPrefixTopic x = x) →
  backfill addPrefixTopic o (backfill addPrefixTopic o chan) =
    backfill addPrefixTopic o chan.
Proof.
  intros H.
  destruct chan as [i n g mr dl am], o as [omr odl oa].
  unfold backfill, mergeDeadLettering in *. cbn in *.
  destruct H as [Hoff|Hid].
  - destruct dl as [[[[]|] q x]|], odl as [[[[]|] q' x']|], mr, omr;
      cbn in *; try discriminate;
      repeat match goal with v : option string |- _ => destruct v end; done.
  - rewrite ?Hid.
    destruct dl as [[[[]|] q x]|], odl as [[[[]|] q' x']|], mr, omr;
      cbn in *; rewrite ?Hid;
      repeat match goal with v : option string |- _ => destruct v end; done.
Qed.

(** ** disconnect and the close listener *)

(** X14.  A [disconnect()] of an adapter that holds a connection asks for
    one close; when the close resolves, the connection and the channel
    object are gone, and a second [disconnect()] closes nothing and
    changes nothing. *)
Theorem disconnect_twice_closes_once (a : Adapter) (r : close_result) :
  stopping a = false → connection a = true →
  let a' := (disconnect a CloseResolves).1 in
  (disconnect a CloseResolves).2 = [CloseConnection]
  ∧ connection a' = false ∧ channel a' = false
  ∧ disconnect a' r = (a', []).
Proof.
  intros Hs Hc a'. subst a'.
  unfold disconnect, disconnect_begin, disconnect_finish.
  rewrite Hs. destruct a; cbn in *; subst; by destruct r.
Qed.

(** X15.  A [disconnect()] whose close rejects has asked for the close and
    leaves the adapter exactly as it was: connection and channel object
    are kept and the stopping flag is unset again. *)
Theorem rejected_close_changes_nothing (a : Adapter) :
  stopping a = false → connection a = true →
  disconnect a CloseRejects = (a, [CloseConnection]).
Proof.
  intros Hs Hc. unfold disconnect, disconnect_begin, disconnect_finish.
  rewrite Hs. destruct a; cbn in *; by subst.
Qed.

(** X16.  For an adapter that is not stopping, a close event of the
    connection sets the 2000 ms timer and the next action is a connection
    attempt; once [disconnect()] has set the stopping flag of that
    adapter, the close event only clears [connected]: no timer is set and
    no connection attempt is made. *)
Theorem close_event_reconnects_unless_stopping
    (addPrefixTopic : option string → option string) (fuel : nat) (a a' : Adapter)
    (envs : nat → connect_env) (acts : list action) :
  stopping a = false →
  onConnectionClose addPrefixTopic fuel a envs = Some (a', acts) →
  onConnectionClose addPrefixTopic fuel (disconnect_begin a).1 envs =
    Some (with_connected false (disconnect_begin a).1, [])
  ∧ ∃ rest,
      acts = SetTimeout 2000
               :: Connect (pickUri (with_connected false a)).2 :: rest.
Proof.
  intros Hs Hrun. split.
  - unfold onConnectionClose, disconnect_begin.
    by destruct (stopping a) eqn:E; cbn; rewrite ?E.
  - revert Hrun. unfold onConnectionClose. cbn. rewrite Hs.
    destruct fuel as [|fuel]; [done|]. cbn [connect].
    pose proof (tryConnect_head addPrefixTopic (with_connected false a) (envs 0%nat))
      as Hhead.
    destruct (tryConnect addPrefixTopic (with_connected false a) (envs 0%nat))
      as [[a1 acts1] c]. cbn in Hhead.
    destruct acts1 as [|x acts1]; [done|]. injection Hhead as ->.
    destruct c.
    + cbn. intros [= <- <-]. by eexists.
    + destruct (connect addPrefixTopic fuel a1 envs 1) as [[a2 rest]|]; [|done].
      cbn. intros [= <- <-]. by eexists.
Qed.

(** ** unsubscribe, further *)

Lemma checkPendingMessages_busy channelID snap :
  (∀ j, getNumberOfChannelActiveMessages channelID (snap j) ≠ 0%nat) →
  ∀ fuel k, checkPendingMessages fuel channelID snap k = None.
Proof.
  intros Hbusy. induction fuel as [|fuel IH]; intros k; [done|]. cbn.
  destruct (Nat.eqb_spec (getNumberOfChannelActiveMessages channelID (snap k)) 0)
    as [Hz|_]; [by apply Hbusy in Hz|].
  by rewrite IH.
Qed.

(** X17.  However [unsubscribe] ends, it leaves the subscription table and
    the descriptors as they were: the entry of the unsubscribed channel is
    still in the table. *)
Theorem unsubscribe_keeps_table_entry (fuel : nat) (a : Adapter) (chan : Channel)
    (cancel_ok : bool) (snap : nat → tracker) (a' : Adapter)
    (acts : list action) (c : completion) :
  unsubscribe fuel a chan cancel_ok snap = Some (a', acts, c) →
  subscriptions a' = subscriptions a
  ∧ objects a' = objects a
  ∧ table_get (id chan) (subscriptions a') = table_get (id chan) (subscriptions a).
Proof.
  unfold unsubscribe. intros H.
  assert (subscriptions a' = subscriptions a ∧ objects a' = objects a) as [Hs Ho].
  { repeat case_match; simplify_eq; try done.
    destruct (checkPendingMessages _ _ _ _) as [[t acts0]|]; simplify_eq/=. done. }
  by rewrite Hs.
Qed.

(** X18.  While every check finds messages of the channel in flight,
    [unsubscribe] does not return, however many checks are made. *)
Theorem unsubscribe_never_returns_while_busy (a : Adapter) (chan : Channel)
    (sub : Subscription) (snap : nat → tracker) :
  table_get (id chan) (subscriptions a) = Some sub → channel a = true →
  (∀ j, getNumberOfChannelActiveMessages (id chan) (snap j) ≠ 0%nat) →
  ∀ fuel, unsubscribe fuel a chan true snap = None.
Proof.
  intros Hsub Hch Hbusy fuel. unfold unsubscribe. rewrite Hsub, Hch. cbn.
  by rewrite checkPendingMessages_busy.
Qed.

(** ** publish, further *)

Lemma callOptions_lookup o k :
  po_fields (callOptions o) !! k =
    if decide (k = "persistent") then o_persistent o
    else if decide (k = "expiration") then o_ttl o
    else if decide (k = "priority") then o_priority o
    else if decide (k = "correlationId") then o_correlationId o
    else None.
Proof.
  unfold callOptions, defined_entries. cbn [po_fields].
  destruct o as [[p0|] [t0|] [pr|] [c0|] h r];
    cbn [omap fmap option_fmap option_map fst snd o_persistent o_ttl o_priority
         o_correlationId list_to_map foldr uncurry];
    repeat case_decide; subst; simplify_map_eq; done.
Qed.

(** X19.  The options that [publish] hands to the transport: a
    [persistent], [ttl] (sent as [expiration]), [priority] or
    [correlationId] given in the call wins over the adapter-wide message
    option of that name, and the adapter-wide one is used when the call
    gives none; every other adapter-wide option is passed on unchanged;
    headers are merged name by name, the call's value winning. *)
Theorem publish_call_options_win {V : Type} (serialize raw_bytes : V → bytes)
    (a : Adapter) (channelName : string) (payload : V) (o : PublishCall) :
  stopping a = false → channel a = true →
  let wide := messageOptions (opt_amqp (opts a)) in
  ∃ data options,
    publish serialize raw_bytes a channelName payload o true =
      ([Publish channelName (Some "") data options], Returned)
    ∧ po_fields options !! "persistent" =
        first_defined (o_persistent o) (po_fields wide !! "persistent")
    ∧ po_fields options !! "expiration" =
        first_defined (o_ttl o) (po_fields wide !! "expiration")
    ∧ po_fields options !! "priority" =
        first_defined (o_priority o) (po_fields wide !! "priority")
    ∧ po_fields options !! "correlationId" =
        first_defined (o_correlationId o) (po_fields wide !! "correlationId")
    ∧ (∀ k, k ∉ ["persistent"; "expiration"; "priority"; "correlationId"] →
         po_fields options !! k = po_fields wide !! k)
    ∧ (∀ k, default ∅ (po_headers options) !! k =
              first_defined (default ∅ (o_headers o) !! k)
                            (default ∅ (po_headers wide) !! k)).
Proof.
  intros Hs Hc wide. unfold publish. rewrite Hs, Hc. cbn [negb].
  eexists _, _. split; [done|]. unfold defaultsDeep. cbn [po_fields po_headers].
  assert (∀ k, (po_fields (callOptions o) ∪ po_fields wide) !! k =
               first_defined (po_fields (callOptions o) !! k) (po_fields wide !! k))
    as Hunion.
  { intros k. rewrite lookup_union.
    by destruct (po_fields (callOptions o) !! k), (po_fields wide !! k). }
  repeat split.
  - by rewrite Hunion, callOptions_lookup.
  - by rewrite Hunion, callOptions_lookup.
  - by rewrite Hunion, callOptions_lookup.
  - by rewrite Hunion, callOptions_lookup.
  - intros k Hk. rewrite Hunion, callOptions_lookup.
    repeat case_decide; subst; try done; exfalso; apply Hk; set_solver.
  - intros k. fold wide.
    change (po_headers (callOptions o)) with (o_headers o).
    destruct (o_headers o) as [h|], (po_headers wide) as [h'|];
      cbn [union_with option_union_with from_option Datatypes.id].
    + rewrite lookup_union. by destruct (h !! k), (h' !! k).
    + by destruct (h !! k).
    + by rewrite lookup_empty.
    + by rewrite lookup_empty.
Qed.

(** ** The URL list *)

Lemma split_semicolon_plain s :
  has_semicolon s = false → split_semicolon s = [s].
Proof.
  induction s as [|c s IH]; intros H; [done|].
  simpl in H. simpl. destruct (Ascii.eqb c ";") eqn:E; [done|].
  by rewrite (IH H).
Qed.

Lemma split_semicolon_app s rest :
  has_semicolon s = false →
  split_semicolon (String.append s (String ";" rest)) = s :: split_semicolon rest.
Proof.
  induction s as [|c s IH]; intros H; [done|].
  simpl in H. simpl. destruct (Ascii.eqb c ";") eqn:E; [done|].
  by rewrite (IH H).
Qed.

Lemma split_only_semicolons s :
  only_semicolons s = true →
  filter (λ x : string, x ≠ "") (split_semicolon s) = [].
Proof.
  induction s as [|c s IH]; intros H; [done|].
  simpl in H. simpl. destruct (Ascii.eqb c ";") eqn:E; [|done].
  rewrite filter_cons_False by naive_solver. by apply IH.
Qed.

(** X20.  Splitting undoes joining: a list of non-empty URLs that hold no
    semicolon and that [trim] leaves as they are, written as one string
    with [";"] between them, is read back by the constructor as the same
    list. *)
Theorem splitUrl_of_joined_list (trim : string → string) (uri : list string) :
  Forall (λ u, u ≠ "" ∧ has_semicolon u = false ∧ trim u = u) uri →
  constructor_url trim (UrlString (String.concat ";" uri)) = Some uri.
Proof.
  intros H. cbn [constructor_url]. f_equal. unfold splitUrl.
  induction H as [|u rest (Hne & Hsemi & Htrim) Hrest IH]; [done|].
  destruct rest as [|u' rest].
  - cbn [String.concat]. rewrite split_semicolon_plain by done.
    rewrite filter_cons_True by done. cbn. by rewrite Htrim.
  - change (String.concat ";" (u :: u' :: rest))
      with (String.append u (String ";" (String.concat ";" (u' :: rest)))).
    rewrite split_semicolon_app by done.
    rewrite filter_cons_True by done. cbn [map]. by rewrite Htrim, IH.
Qed.

(** X21.  A URL string that holds nothing but semicolons (the empty string
    too) leaves an empty URL list; with an empty list every connect
    attempt still counts but targets no URL at all ([undefined]). *)
Theorem empty_url_list_targets_nothing (trim : string → string)
    (addPrefixTopic : option string → option string) (s : string) (a : Adapter)
    (env : connect_env) :
  only_semicolons s = true →
  url (opt_amqp (opts a)) = constructor_url trim (UrlString s) →
  constructor_url trim (UrlString s) = Some []
  ∧ head (tryConnect addPrefixTopic a env).1.2 = Some (Connect None)
  ∧ connectAttempt (tryConnect addPrefixTopic a env).1.1 = (connectAttempt a + 1)%Z.
Proof.
  intros Hs Hurl.
  assert (constructor_url trim (UrlString s) = Some []) as Hempty.
  { cbn. unfold splitUrl. by rewrite split_only_semicolons. }
  rewrite Hempty in Hurl. split; [done|].
  rewrite tryConnect_head, (tryConnect_connectAttempt _ _ _ _ Hurl).
  split; [|done]. unfold pickUri. by rewrite Hurl.
Qed.

(** X22.  The constructor drops empty segments before it trims: a segment
    that is not empty but that [trim] empties (blanks between two
    semicolons) stays in the list as an empty URL. *)
Theorem blank_segment_stays_as_empty_url (trim : string → string)
    (before blank after : string) :
  has_semicolon before = false → has_semicolon blank = false →
  blank ≠ "" → trim blank = "" →
  ∃ l1 l2,
    constructor_url trim
      (UrlString (String.append before
                    (String ";" (String.append blank (String ";" after))))) =
      Some (l1 ++ "" :: l2).
Proof.
  intros Hb Hbl Hne Htrim. cbn [constructor_url]. unfold splitUrl.
  rewrite !split_semicolon_app by done.
  exists (map trim (filter (λ x : string, x ≠ "") [before])),
         (map trim (filter (λ x : string, x ≠ "") (split_semicolon after))).
  f_equal. change (before :: blank :: split_semicolon after)
    with ([before] ++ blank :: split_semicolon after).
  rewrite filter_app, (filter_cons_True _ blank) by done.
  by rewrite map_app, map_cons, Htrim.
Qed.

(** ** The Kafka adapter *)

(** X23.  Kafka [disconnect()]: when the producer's disconnect rejects,
    the consumer is never asked to disconnect; both handles are kept and
    the stopping flag is unset again. *)
Theorem kafka_rejected_producer_disconnect_skips_consumer (a : KafkaAdapter)
    (consumer_ok : bool) :
  k_stopping a = false → k_producer a = true →
  let out := kafka_disconnect a false consumer_ok in
  out.2 = [ProducerDisconnect]
  ∧ k_producer out.1 = true
  ∧ k_consumer out.1 = k_consumer a
  ∧ k_stopping out.1 = false.
Proof.
  intros Hs Hp out. subst out. unfold kafka_disconnect. rewrite Hs, Hp. by cbn.
Qed.

(** X24.  Kafka: after a [disconnect()] whose disconnects resolved, the
    producer and the consumer are gone; a [publish] then throws a
    TypeError without sending, and a second [disconnect()] does nothing. *)
Theorem kafka_publish_after_disconnect_throws {V : Type}
    (serialize raw_bytes : V → bytes) (a : KafkaAdapter) (channelName : string)
    (payload : V) (o : KafkaPublishCall) (send_ok p_ok c_ok : bool) :
  k_stopping a = false →
  let a' := (kafka_disconnect a true true).1 in
  k_producer a' = false ∧ k_consumer a' = false
  ∧ kafka_publish serialize raw_bytes a' channelName payload o send_ok =
      ([], Threw TypeError)
  ∧ kafka_disconnect a' p_ok c_ok = (a', []).
Proof.
  intros Hs a'. subst a'. unfold kafka_disconnect, kafka_publish. rewrite Hs.
  destruct a as [cl [] [] cd st]; cbn in *; subst; by cbn.
Qed.

(** X25.  Kafka [connect()]: when the producer's connect rejects, the
    consumer's connect is never called, yet the producer object is in
    place: a later [publish] hands its message to that producer instead of
    failing on a missing one. *)
Theorem kafka_failed_connect_leaves_producer {V : Type}
    (serialize raw_bytes : V → bytes) (a : KafkaAdapter) (consumer_ok : bool)
    (channelName : string) (payload : V) (o : KafkaPublishCall) :
  k_stopping a = false →
  let out := kafka_connect a false consumer_ok in
  out.2 = Threw TransportError
  ∧ out.1.2 = [ProducerConnect]
  ∧ kafka_publish serialize raw_bytes out.1.1 channelName payload o true =
      ([Send channelName (ko_key o)
             (if ko_raw o then raw_bytes payload else serialize payload)
             (ko_partition o) (ko_acks o) (ko_timeout o) (ko_compression o)],
       Returned).
Proof.
  intros Hs out. subst out. unfold kafka_connect, kafka_publish. cbn. by rewrite Hs.
Qed.

(** ** The further properties at sample inputs *)

Lemma message_acked_after_retries_witness :
  let chan := Sample.orders (Some 3%Z) (Sample.dlq false) in
  (maxRetries chan = Some 3%Z ∧ (Z.of_nat 2 < 3)%Z
   ∧ headers Sample.first_delivery !! redelivered_key = None
   ∧ (∀ j, (j < 2)%nat → settles (Sample.fails_twice j) = Rejects)
   ∧ settles (Sample.fails_twice 2) = Resolves
   ∧ (∀ k, publish_result (Sample.fails_twice k) = true)
   ∧ (2 < 3)%nat)
  ∧ ∃ ds,
      lineage Sample.no_str_ge 3 chan Sample.fails_twice 0
              Sample.first_delivery ∅ = Some ds
      ∧ length ds = 3%nat.
Proof.
  intros chan.
  assert (Z.of_nat 2 < 3)%Z as Hn by (vm_compute; reflexivity).
  assert (∀ j, (j < 2)%nat → settles (Sample.fails_twice j) = Rejects) as Hrej.
  { intros j Hj. destruct j as [|[|j]]; [reflexivity|reflexivity|lia]. }
  assert (2 < 3)%nat as Hfuel by lia.
  split; [repeat split; try done|].
  destruct (message_acked_after_retries Sample.no_str_ge chan 3%Z
              Sample.first_delivery Sample.fails_twice ∅ 2%nat 3%nat
              eq_refl Hn eq_refl Hrej eq_refl (λ _, eq_refl) Hfuel)
    as (ds & Hrun & Hlen & _).
  exists ds. split; [exact Hrun | exact Hlen].
Defined.

Lemma delivery_settled_once_witness :
  let chan := Sample.orders (Some 3%Z) (Sample.dlq false) in
  (maxRetries chan = Some 3%Z ∧ 3%Z ≠ 0%Z
   ∧ deadLettering chan = Some (Sample.dlq false))
  ∧ settle_count
      (createConsumerHandler Sample.no_str_ge chan Sample.first_delivery
                             Rejects true ∅).1.2 = 1%nat.
Proof.
  intros chan.
  assert (3%Z ≠ 0%Z) as Hnz by discriminate.
  split; [repeat split; done|].
  exact (proj2 (delivery_settled_once Sample.no_str_ge chan (Sample.dlq false) 3%Z
                  Sample.first_delivery Rejects ∅ eq_refl Hnz eq_refl)).
Defined.

Lemma nonpositive_budget_redelivers_forever_witness :
  let chan := Sample.orders (Some (-1)%Z) (Sample.dlq false) in
  ((∀ n, maxRetries chan = Some n → (n ≤ 0)%Z)
   ∧ (∀ k, settles (Sample.always_failing k) = Rejects)
   ∧ (∀ k, publish_result (Sample.always_failing k) = true))
  ∧ lineage Sample.no_str_ge 7 chan Sample.always_failing 0
            Sample.first_delivery ∅ = None.
Proof.
  intros chan.
  assert (∀ n, maxRetries chan = Some n → (n ≤ 0)%Z) as Hneg.
  { intros n [= <-]. lia. }
  split; [repeat split; done|].
  exact (proj2 (nonpositive_budget_redelivers_forever Sample.no_str_ge chan
                  Sample.always_failing Hneg (λ _, eq_refl) (λ _, eq_refl))
               7%nat 0%nat Sample.first_delivery ∅).
Defined.

Lemma redelivery_keeps_payload_and_headers_witness :
  "x-trace" ≠ redelivered_key
  ∧ content (nth_delivery 2 Sample.always_failing 0 Sample.counted_delivery) =
      Sample.hi
  ∧ headers (nth_delivery 2 Sample.always_failing 0 Sample.counted_delivery)
      !! "x-trace" = None.
Proof.
  assert ("x-trace" ≠ redelivered_key) as Hkey by discriminate.
  split; [exact Hkey|].
  exact (redelivery_keeps_payload_and_headers 2 Sample.always_failing 0
           Sample.counted_delivery "x-trace" Hkey).
Defined.

Lemma preset_count_shortens_retries_witness :
  let chan := Sample.orders (Some 3%Z) (Sample.dlq false) in
  (maxRetries chan = Some 3%Z ∧ (0 < 3)%Z
   ∧ deadLettering chan = Some (Sample.dlq false)
   ∧ headers Sample.counted_delivery !! redelivered_key = Some (HNum 2)
   ∧ (0 < 2)%Z
   ∧ (∀ k, settles (Sample.always_failing k) = Rejects)
   ∧ (∀ k, publish_result (Sample.always_failing k) = true)
   ∧ (Z.to_nat (3 - 2) < 2)%nat)
  ∧ ∃ ds,
      lineage Sample.no_str_ge 2 chan Sample.always_failing 0
              Sample.counted_delivery ∅ = Some ds
      ∧ length ds = 2%nat.
Proof.
  intros chan.
  assert (Z.to_nat (3 - 2) < 2)%nat as Hfuel by (vm_compute; lia).
  split; [repeat split; try done; exact Hfuel|].
  destruct (preset_count_shortens_retries Sample.no_str_ge chan (Sample.dlq false)
              3%Z 2%Z Sample.counted_delivery Sample.always_failing ∅ 2%nat
              eq_refl eq_refl eq_refl eq_refl eq_refl
              (λ _, eq_refl) (λ _, eq_refl) Hfuel)
    as (ds & Hrun & Hlen & _).
  exists ds. split; [exact Hrun | exact Hlen].
Defined.

Lemma connect_waits_two_seconds_per_refusal_witness :
  let a := new_adapter Sample.two_hosts in
  (url (opt_amqp (opts a)) = Some ["host1"; "host2"]
   ∧ connectionCount a = 0%Z
   ∧ (∀ j, (j < 2)%nat → connect_ok (Sample.fails_first 2 j) = false)
   ∧ connect_ok (Sample.fails_first 2 2) = true
   ∧ createChannel_ok (Sample.fails_first 2 2) = true
   ∧ (2 < 3)%nat)
  ∧ ∃ a' acts,
      connect Sample.ns 3 a (Sample.fails_first 2) 0 = Some (a', acts)
      ∧ timeouts acts = [2000%Z; 2000%Z].
Proof.
  intros a.
  assert (∀ j, (j < 2)%nat → connect_ok (Sample.fails_first 2 j) = false) as Hno.
  { intros j Hj. destruct j as [|[|j]]; [reflexivity|reflexivity|lia]. }
  assert (2 < 3)%nat as Hfuel by lia.
  split; [repeat split; done|].
  destruct (connect_waits_two_seconds_per_refusal Sample.ns a ["host1"; "host2"]
              (Sample.fails_first 2) 2%nat 3%nat
              eq_refl eq_refl Hno eq_refl eq_refl Hfuel)
    as (a' & acts & Hrun & Ht & _).
  exists a', acts. split; [exact Hrun | exact Ht].
Defined.

Lemma subscribe_registers_channel_witness :
  (objects Sample.with_descriptor !! 0%nat = Some Sample.orders_with_dlq
   ∧ channel Sample.with_descriptor = true
   ∧ assertQueue_ok (Sample.broker_grants 0) = true
   ∧ consume_result (Sample.broker_grants 0) = Some "amq.ctag-1")
  ∧ table_get "g.orders"
      (subscriptions (subscribe Sample.ns Sample.with_descriptor 0
                                (Sample.broker_grants 0)).1.1) =
      Some (mkSubscription 0 "amq.ctag-1").
Proof.
  assert (objects Sample.with_descriptor !! 0%nat = Some Sample.orders_with_dlq)
    as Hobj by (vm_compute; reflexivity).
  assert (channel Sample.with_descriptor = true) as Hch by (vm_compute; reflexivity).
  split; [repeat split; done|].
  exact (proj1 (proj2 (subscribe_registers_channel Sample.ns Sample.with_descriptor
                         0%nat (Sample.broker_grants 0) Sample.orders_with_dlq
                         "amq.ctag-1" Hobj Hch eq_refl eq_refl))).
Defined.

Lemma failed_subscribe_registers_nothing_witness :
  (subscribe Sample.ns Sample.with_descriptor 0 (Sample.broker_rejects 0)).2 =
    Threw TransportError
  ∧ subscriptions
      (subscribe Sample.ns Sample.with_descriptor 0 (Sample.broker_rejects 0)).1.1 =
      subscriptions Sample.with_descriptor.
Proof.
  assert ((subscribe Sample.ns Sample.with_descriptor 0 (Sample.broker_rejects 0)).2
          = Threw TransportError) as Hthrew by (vm_compute; reflexivity).
  split; [exact Hthrew|].
  exact (proj1 (failed_subscribe_registers_nothing Sample.ns Sample.with_descriptor
                  0%nat (Sample.broker_rejects 0) TransportError Hthrew)).
Defined.

Lemma subscribed_once_consistent : table_consistent Sample.subscribed_once.
Proof.
  unfold table_consistent.
  replace (subscriptions Sample.subscribed_once)
    with [("g.orders", mkSubscription 0 "amq.ctag-1")] by (vm_compute; reflexivity).
  constructor; [vm_compute; reflexivity | constructor].
Defined.

Lemma subscribe_keeps_table_consistent_witness :
  table_consistent Sample.subscribed_once
  ∧ table_consistent
      (subscribe Sample.ns Sample.subscribed_once 0 (Sample.broker_rejects 0)).1.1.
Proof.
  split; [exact subscribed_once_consistent|].
  exact (subscribe_keeps_table_consistent Sample.ns Sample.subscribed_once 0%nat
           (Sample.broker_rejects 0) subscribed_once_consistent).
Defined.

Lemma subscribed_once_refs : table_refs Sample.subscribed_once = [0%nat].
Proof. vm_compute. reflexivity. Defined.

Lemma resubscribeAllChannels_covers_table_witness :
  (channel Sample.subscribed_once = true
   ∧ table_consistent Sample.subscribed_once
   ∧ (∀ r, r ∈ table_refs Sample.subscribed_once → granted (Sample.broker_grants r)))
  ∧ ∃ a' acts,
      resubscribeAllChannels Sample.ns Sample.subscribed_once Sample.broker_grants =
        (a', acts, Returned)
      ∧ consumed acts = [0%nat].
Proof.
  assert (channel Sample.subscribed_once = true) as Hch by (vm_compute; reflexivity).
  assert (∀ r, r ∈ table_refs Sample.subscribed_once → granted (Sample.broker_grants r))
    as Hgr.
  { intros r _. split; [reflexivity|]. by eexists. }
  split; [split; [exact Hch | split; [exact subscribed_once_consistent | exact Hgr]]|].
  destruct (resubscribeAllChannels_covers_table Sample.ns Sample.subscribed_once
              Sample.broker_grants Hch subscribed_once_consistent Hgr)
    as (a' & acts & Hrun & Hc & _).
  exists a', acts. split; [exact Hrun|]. rewrite Hc. exact subscribed_once_refs.
Defined.

Lemma resubscribeAllChannels_stops_at_rejection_witness :
  (channel Sample.subscribed_once = true
   ∧ table_consistent Sample.subscribed_once
   ∧ table_refs Sample.subscribed_once = [] ++ 0%nat :: []
   ∧ Forall (λ r, granted (Sample.broker_rejects r)) []
   ∧ assertQueue_ok (Sample.broker_rejects 0) = false)
  ∧ ∃ a' acts,
      resubscribeAllChannels Sample.ns Sample.subscribed_once Sample.broker_rejects =
        (a', acts, Threw TransportError)
      ∧ consumed acts = [].
Proof.
  assert (channel Sample.subscribed_once = true) as Hch by (vm_compute; reflexivity).
  assert (Forall (λ r, granted (Sample.broker_rejects r)) []) as Hpre by constructor.
  split; [split; [exact Hch|]; split; [exact subscribed_once_consistent|];
          split; [exact subscribed_once_refs|]; split; [exact Hpre | reflexivity]|].
  destruct (resubscribeAllChannels_stops_at_rejection Sample.ns Sample.subscribed_once
              Sample.broker_rejects [] [] 0%nat Hch subscribed_once_consistent
              subscribed_once_refs Hpre eq_refl)
    as (a' & acts & Hrun & Hc & _).
  exists a', acts. split; [exact Hrun | exact Hc].
Defined.

Lemma backfill_twice_is_backfill_once_witness :
  (default false
     (enabled (mergeDeadLettering (deadLettering Sample.orders_with_dlq)
                                  (opt_deadLettering Sample.two_hosts))) = false
   ∨ (∀ x : option string, (λ y, y) x = x))
  ∧ backfill (λ y, y) Sample.two_hosts
      (backfill (λ y, y) Sample.two_hosts Sample.orders_with_dlq) =
      backfill (λ y, y) Sample.two_hosts Sample.orders_with_dlq.
Proof.
  assert (default false
            (enabled (mergeDeadLettering (deadLettering Sample.orders_with_dlq)
                                         (opt_deadLettering Sample.two_hosts))) = false
          ∨ (∀ x : option string, (λ y, y) x = x)) as H by (right; reflexivity).
  split; [exact H|].
  exact (backfill_twice_is_backfill_once (λ y, y) Sample.two_hosts
           Sample.orders_with_dlq H).
Defined.

Lemma disconnect_twice_closes_once_witness :
  (stopping Sample.connected_once = false ∧ connection Sample.connected_once = true)
  ∧ disconnect (disconnect Sample.connected_once CloseResolves).1 CloseResolves =
      ((disconnect Sample.connected_once CloseResolves).1, []).
Proof.
  assert (stopping Sample.connected_once = false) as Hs by (vm_compute; reflexivity).
  assert (connection Sample.connected_once = true) as Hc by (vm_compute; reflexivity).
  split; [split; [exact Hs | exact Hc]|].
  exact (proj2 (proj2 (proj2 (disconnect_twice_closes_once Sample.connected_once
                                CloseResolves Hs Hc)))).
Defined.

Lemma rejected_close_changes_nothing_witness :
  (stopping Sample.connected_once = false ∧ connection Sample.connected_once = true)
  ∧ disconnect Sample.connected_once CloseRejects =
      (Sample.connected_once, [CloseConnection]).
Proof.
  assert (stopping Sample.connected_once = false) as Hs by (vm_compute; reflexivity).
  assert (connection Sample.connected_once = true) as Hc by (vm_compute; reflexivity).
  split; [split; [exact Hs | exact Hc]|].
  exact (rejected_close_changes_nothing Sample.connected_once Hs Hc).
Defined.

Lemma close_event_reconnects_unless_stopping_witness :
  (stopping Sample.subscribed_once = false
   ∧ onConnectionClose Sample.ns 1 Sample.subscribed_once (Sample.fails_first 0) =
       Some (Sample.reconnected,
             [SetTimeout 2000; Connect (Some "host2"); CreateChannel; Prefetch 10;
              AssertExchange "orders" "fanout" ∅; AssertQueue "g.orders" ∅;
              BindQueue "g.orders" "orders" ""; Consume "g.orders" 0 ∅]))
  ∧ onConnectionClose Sample.ns 1 (disconnect_begin Sample.subscribed_once).1
                      (Sample.fails_first 0) =
      Some (with_connected false (disconnect_begin Sample.subscribed_once).1, []).
Proof.
  assert (stopping Sample.subscribed_once = false) as Hs by (vm_compute; reflexivity).
  assert (onConnectionClose Sample.ns 1 Sample.subscribed_once (Sample.fails_first 0) =
            Some (Sample.reconnected,
                  [SetTimeout 2000; Connect (Some "host2"); CreateChannel; Prefetch 10;
                   AssertExchange "orders" "fanout" ∅; AssertQueue "g.orders" ∅;
                   BindQueue "g.orders" "orders" ""; Consume "g.orders" 0 ∅]))
    as Hrun by (vm_compute; reflexivity).
  split; [split; [exact Hs | exact Hrun]|].
  exact (proj1 (close_event_reconnects_unless_stopping Sample.ns 1
                  Sample.subscribed_once Sample.reconnected (Sample.fails_first 0)
                  _ Hs Hrun)).
Defined.

Lemma unsubscribe_keeps_table_entry_witness :
  let a' := with_activeMessages
              (stopChannelActiveMessages "g.orders" (Sample.busy_twice 2))
              Sample.subscribed_once in
  unsubscribe 5 Sample.subscribed_once Sample.orders_with_dlq true Sample.busy_twice =
    Some (a', [Cancel "amq.ctag-1"; SetTimeout 1000; SetTimeout 1000], Returned)
  ∧ subscriptions a' = subscriptions Sample.subscribed_once.
Proof.
  intros a'.
  assert (unsubscribe 5 Sample.subscribed_once Sample.orders_with_dlq true
                      Sample.busy_twice =
            Some (a', [Cancel "amq.ctag-1"; SetTimeout 1000; SetTimeout 1000],
                  Returned)) as Hrun by (vm_compute; reflexivity).
  split; [exact Hrun|].
  exact (proj1 (unsubscribe_keeps_table_entry 5 Sample.subscribed_once
                  Sample.orders_with_dlq true Sample.busy_twice a' _ _ Hrun)).
Defined.

Lemma unsubscribe_never_returns_while_busy_witness :
  let sub := {| sub_chan := 0%nat; sub_consumerTag := "amq.ctag-1" |} in
  (table_get (id Sample.orders_with_dlq) (subscriptions Sample.subscribed_once) = Some sub
   ∧ channel Sample.subscribed_once = true
   ∧ (∀ j, getNumberOfChannelActiveMessages (id Sample.orders_with_dlq)
             (Sample.always_busy j) ≠ 0%nat))
  ∧ unsubscribe 9 Sample.subscribed_once Sample.orders_with_dlq true
                Sample.always_busy = None.
Proof.
  intros sub.
  assert (table_get (id Sample.orders_with_dlq) (subscriptions Sample.subscribed_once)
          = Some sub) as Hsub by (vm_compute; reflexivity).
  assert (channel Sample.subscribed_once = true) as Hch by (vm_compute; reflexivity).
  assert (∀ j, getNumberOfChannelActiveMessages (id Sample.orders_with_dlq)
                 (Sample.always_busy j) ≠ 0%nat) as Hbusy.
  { intros j. vm_compute. discriminate. }
  split; [split; [exact Hsub | split; [exact Hch | exact Hbusy]]|].
  exact (unsubscribe_never_returns_while_busy Sample.subscribed_once
           Sample.orders_with_dlq sub Sample.always_busy Hsub Hch Hbusy 9%nat).
Defined.

Lemma publish_call_options_win_witness :
  (stopping Sample.connected_once = false ∧ channel Sample.connected_once = true)
  ∧ ∃ data options,
      publish Sample.utf8 Sample.utf8 Sample.connected_once "orders" "x"
              Sample.plain_call true =
        ([Publish "orders" (Some "") data options], Returned)
      ∧ po_fields options !! "persistent" = None.
Proof.
  assert (stopping Sample.connected_once = false) as Hs by (vm_compute; reflexivity).
  assert (channel Sample.connected_once = true) as Hc by (vm_compute; reflexivity).
  split; [split; [exact Hs | exact Hc]|].
  destruct (publish_call_options_win Sample.utf8 Sample.utf8 Sample.connected_once
              "orders" "x" Sample.plain_call Hs Hc)
    as (data & options & Hrun & Hp & _).
  exists data, options. split; [exact Hrun | exact Hp].
Defined.

Lemma splitUrl_of_joined_list_witness :
  Forall (λ u, u ≠ "" ∧ has_semicolon u = false ∧ (λ s : string, s) u = u)
         ["host1"; "host2"]
  ∧ constructor_url (λ s, s) (UrlString "host1;host2") = Some ["host1"; "host2"].
Proof.
  assert (Forall (λ u, u ≠ "" ∧ has_semicolon u = false ∧ (λ s : string, s) u = u)
                 ["host1"; "host2"]) as H.
  { repeat constructor; discriminate. }
  split; [exact H|].
  exact (splitUrl_of_joined_list (λ s, s) ["host1"; "host2"] H).
Defined.

Lemma empty_url_list_targets_nothing_witness :
  let a := new_adapter (Sample.options (Some [])) in
  (only_semicolons ";;" = true
   ∧ url (opt_amqp (opts a)) = constructor_url (λ s, s) (UrlString ";;"))
  ∧ head (tryConnect Sample.ns a (Sample.fails_first 0 0)).1.2 = Some (Connect None).
Proof.
  intros a.
  assert (url (opt_amqp (opts a)) = constructor_url (λ s, s) (UrlString ";;"))
    as Hurl by (vm_compute; reflexivity).
  split; [split; [reflexivity | exact Hurl]|].
  exact (proj1 (proj2 (empty_url_list_targets_nothing (λ s, s) Sample.ns ";;" a
                         (Sample.fails_first 0 0) eq_refl Hurl))).
Defined.

Lemma blank_segment_stays_as_empty_url_witness :
  (has_semicolon "a" = false ∧ has_semicolon " " = false
   ∧ " " ≠ "" ∧ Sample.trim_blank " " = "")
  ∧ ∃ l1 l2,
      constructor_url Sample.trim_blank (UrlString "a; ;b") = Some (l1 ++ "" :: l2).
Proof.
  assert (" " ≠ "") as Hne by discriminate.
  split; [repeat split; done|].
  exact (blank_segment_stays_as_empty_url Sample.trim_blank "a" " " "b"
           eq_refl eq_refl Hne eq_refl).
Defined.

Lemma kafka_rejected_producer_disconnect_skips_consumer_witness :
  (k_stopping Sample.kafka_connected = false ∧ k_producer Sample.kafka_connected = true)
  ∧ (kafka_disconnect Sample.kafka_connected false true).2 = [ProducerDisconnect]
  ∧ k_consumer (kafka_disconnect Sample.kafka_connected false true).1 = true.
Proof.
  split; [split; reflexivity|].
  destruct (kafka_rejected_producer_disconnect_skips_consumer Sample.kafka_connected
              true eq_refl eq_refl) as (Hacts & _ & Hcons & _).
  split; [exact Hacts | exact Hcons].
Defined.

Lemma kafka_publish_after_disconnect_throws_witness :
  k_stopping Sample.kafka_connected = false
  ∧ kafka_publish Sample.utf8 Sample.utf8
      (kafka_disconnect Sample.kafka_connected true true).1 "orders" "x"
      Sample.kafka_call true = ([], Threw TypeError).
Proof.
  split; [reflexivity|].
  exact (proj1 (proj2 (proj2 (kafka_publish_after_disconnect_throws Sample.utf8
                                Sample.utf8 Sample.kafka_connected "orders" "x"
                                Sample.kafka_call true true true eq_refl)))).
Defined.

Lemma kafka_failed_connect_leaves_producer_witness :
  k_stopping new_kafka_adapter = false
  ∧ (kafka_connect new_kafka_adapter false true).1.2 = [ProducerConnect]
  ∧ kafka_publish Sample.utf8 Sample.utf8
      (kafka_connect new_kafka_adapter false true).1.1 "orders" "x"
      Sample.kafka_call true =
      ([Send "orders" None [Byte.x78] None None None None], Returned).
Proof.
  split; [reflexivity|].
  exact (proj2 (kafka_failed_connect_leaves_producer Sample.utf8 Sample.utf8
                  new_kafka_adapter true "orders" "x" Sample.kafka_call eq_refl)).
Defined.
